(** * TG-Work-Checker: [scrape_for_n8n.py]

    A shallow embedding of the chat-identifier resolver
    [parse_chat_identifier] and of the fetch pipeline [scrape], with the
    Python built-ins and the parts of [urllib.parse] they call.

    Python text is a list of Unicode code points, Python integers are [Z],
    [None] is the [None] of [option], an exception is a value of [exn]
    carried by [Raise]. *)

From Stdlib Require Import List ZArith NArith Bool Lia String Ascii DecimalString.
Import ListNotations.

(** ** Python values, text and exceptions *)

Module Py.

(** A [str] is a sequence of code points. *)
Definition str := list N.

Definition ch (a : ascii) : N := N_of_ascii a.

(** Text literal. *)
Definition u (s : string) : str := List.map N_of_ascii (list_ascii_of_string s).

Definition str_eqb (a b : str) : bool :=
  if list_eq_dec N.eq_dec a b then true else false.

(** Exception classes met in the program. *)
Inductive exn_type : Type :=
| ValueError
| OverflowError
| RuntimeError
| UsernameInvalidError
| UsernameNotOccupiedError
| ChannelPrivateError
| OtherError (name : string).

(** An exception object: its class and the text [str(e)] gives. *)
Record exn : Type := Exn { exn_class : exn_type; exn_text : str }.

Inductive result (A : Type) : Type :=
| Ok (a : A)
| Raise (e : exn).
Arguments Ok {A} a.
Arguments Raise {A} e.

Definition bind {A B} (c : result A) (k : A -> result B) : result B :=
  match c with
  | Ok a => k a
  | Raise e => Raise e
  end.

(** Values a dict of the output may hold; [json.dump] prints [PyBool true]
    as [true] and [PyInt 1] as [1]. *)
Inductive pyval : Type :=
| PyNone
| PyBool (b : bool)
| PyInt (z : Z)
| PyStr (s : str).

Definition of_opt_int (o : option Z) : pyval :=
  match o with Some z => PyInt z | None => PyNone end.

Definition of_opt_str (o : option str) : pyval :=
  match o with Some s => PyStr s | None => PyNone end.

(** A dict literal, in insertion order. *)
Definition dict := list (string * pyval).

Fixpoint dict_get (k : string) (d : dict) : option pyval :=
  match d with
  | [] => None
  | (k', v) :: d' => if String.eqb k k' then Some v else dict_get k d'
  end.

(** [str.isspace] of one character: the code points CPython's
    [_PyUnicode_IsWhitespace] accepts. *)
Definition isspace (c : N) : bool :=
  ((9 <=? c) && (c <=? 13) || (28 <=? c) && (c <=? 32)
   || (c =? 133) || (c =? 160) || (c =? 5760)
   || (8192 <=? c) && (c <=? 8202)
   || (c =? 8232) || (c =? 8233) || (c =? 8239) || (c =? 8287)
   || (c =? 12288))%N.

(** [s.lstrip(chars)] with the character set as a predicate. *)
Fixpoint lstrip_by (p : N -> bool) (s : str) : str :=
  match s with
  | [] => []
  | c :: s' => if p c then lstrip_by p s' else s
  end.

Fixpoint rstrip_by (p : N -> bool) (s : str) : str :=
  match s with
  | [] => []
  | c :: s' =>
      match rstrip_by p s' with
      | [] => if p c then [] else [c]
      | r => c :: r
      end
  end.

(** [s.strip()]. *)
Definition strip (s : str) : str := rstrip_by isspace (lstrip_by isspace s).

(** [s.startswith(prefix)]. *)
Fixpoint startswith (s prefix : str) : bool :=
  match prefix, s with
  | [], _ => true
  | a :: prefix', b :: s' => (a =? b)%N && startswith s' prefix'
  | _ :: _, [] => false
  end.

(** [s.startswith((p1, p2, ...))]. *)
Definition startswith_any (s : str) (prefixes : list str) : bool :=
  existsb (startswith s) prefixes.

(** [c in s] for a single character [c]. *)
Definition contains (c : N) (s : str) : bool := existsb (N.eqb c) s.

(** [s.replace(c, "")]. *)
Definition remove_char (c : N) (s : str) : str :=
  filter (fun x => negb (x =? c)%N) s.

(** [s.split(c)]: never empty, one more piece than separators. *)
Fixpoint split (c : N) (s : str) : list str :=
  match s with
  | [] => [[]]
  | x :: s' =>
      if (x =? c)%N then [] :: split c s'
      else match split c s' with
           | h :: t => (x :: h) :: t
           | [] => [[x]]
           end
  end.

(** Cut at the first [c]: [Some (before, after)], or [None] when [c] does
    not occur ([s.find(c) < 0]). *)
Fixpoint cut (c : N) (s : str) : option (str * str) :=
  match s with
  | [] => None
  | x :: s' =>
      if (x =? c)%N then Some ([], s')
      else match cut c s' with
           | Some (a, b) => Some (x :: a, b)
           | None => None
           end
  end.

(** Cut at the last [c] ([s.rfind(c)]). *)
Fixpoint rcut (c : N) (s : str) : option (str * str) :=
  match s with
  | [] => None
  | x :: s' =>
      match rcut c s' with
      | Some (a, b) => Some (x :: a, b)
      | None => if (x =? c)%N then Some ([], s') else None
      end
  end.

(** Longest prefix whose characters all satisfy [p], and the rest. *)
Fixpoint span (p : N -> bool) (s : str) : str * str :=
  match s with
  | [] => ([], [])
  | x :: s' => if p x then let (a, b) := span p s' in (x :: a, b) else ([], s)
  end.

Definition is_ascii (c : N) : bool := (c <? 128)%N.
Definition is_upper (c : N) : bool := ((65 <=? c) && (c <=? 90))%N.
Definition is_lower (c : N) : bool := ((97 <=? c) && (c <=? 122))%N.
Definition is_digit (c : N) : bool := ((48 <=? c) && (c <=? 57))%N.
Definition is_ascii_alpha (c : N) : bool := is_upper c || is_lower c.

(** [s.lower()] on ASCII text. *)
Definition lower_ascii (s : str) : str :=
  List.map (fun c => if is_upper c then (c + 32)%N else c) s.

(** *** [datetime.isoformat()] of an aware UTC timestamp

    The timestamp is the number of microseconds since 1970-01-01T00:00
    UTC; the calendar date comes from the day count by the usual
    era/day-of-era arithmetic of the proleptic Gregorian calendar. *)
Fixpoint zero_padded (width : nat) (n : Z) : str :=
  match width with
  | O => []
  | S w => zero_padded w (n / 10)%Z ++ [Z.to_N (48 + n mod 10)%Z]
  end.

Definition civil_from_days (days : Z) : Z * Z * Z :=
  (let z := days + 719468 in
   let era := z / 146097 in
   let doe := z - era * 146097 in
   let yoe := (doe - doe / 1460 + doe / 36524 - doe / 146096) / 365 in
   let doy := doe - (365 * yoe + yoe / 4 - yoe / 100) in
   let mp := (5 * doy + 2) / 153 in
   let d := doy - (153 * mp + 2) / 5 + 1 in
   let m := if mp <? 10 then mp + 3 else mp - 9 in
   let y := yoe + era * 400 + (if m <=? 2 then 1 else 0) in
   (y, m, d))%Z.

Definition isoformat (t : Z) : str :=
  (let day := t / 86400000000 in
   let rest := t mod 86400000000 in
   let us := rest mod 1000000 in
   let secs := rest / 1000000 in
   let '(y, m, d) := civil_from_days day in
   zero_padded 4 y ++ ch "-" :: zero_padded 2 m ++ ch "-" :: zero_padded 2 d
     ++ ch "T" :: zero_padded 2 (secs / 3600)
     ++ ch ":" :: zero_padded 2 (secs / 60 mod 60)
     ++ ch ":" :: zero_padded 2 (secs mod 60)
     ++ (if us =? 0 then [] else ch "." :: zero_padded 6 us)
     ++ u "+00:00")%Z.

(** *** [int(s)] for text

    CPython first maps the text to ASCII
    ([_PyUnicode_TransformDecimalAndSpaceToASCII]): code points below 127
    are kept, other white space becomes a blank, other decimal digits
    become ['0'..'9'], and the text is cut after the first character that
    is none of these, which becomes ['?'].  [todecimal] is the digit table
    of the Unicode database ([Py_UNICODE_TODECIMAL]). *)
Section Int.
Variable todecimal : N -> option N.

Fixpoint transform_decimal_and_space (s : str) : str :=
  match s with
  | [] => []
  | c :: s' =>
      if (c <? 127)%N then c :: transform_decimal_and_space s'
      else if isspace c then ch " " :: transform_decimal_and_space s'
      else match todecimal c with
           | Some d => (48 + d)%N :: transform_decimal_and_space s'
           | None => [ch "?"]
           end
  end.

(** [Py_ISSPACE]: the six ASCII blanks. *)
Definition c_isspace (c : N) : bool :=
  ((9 <=? c) && (c <=? 13) || (c =? 32))%N.

(** Digits with single underscores between them, most significant
    first; [acc] is the value read so far, [n] the number of digits. *)
Fixpoint digits (s : str) (prev_digit : bool) (acc : Z) (n : nat)
  : option (Z * nat) :=
  match s with
  | [] => if prev_digit then Some (acc, n) else None
  | c :: s' =>
      if is_digit c then
        digits s' true (10 * acc + (Z.of_N c - 48))%Z (S n)
      else if (c =? ch "_")%N && prev_digit then digits s' false acc n
      else None
  end.

(** [sys.int_info.default_max_str_digits]. *)
Definition max_str_digits : nat := 4300.

(** [int(s)]; [None] stands for [ValueError]. *)
Definition int_of_str (s : str) : option Z :=
  let a := transform_decimal_and_space s in
  let a := rstrip_by c_isspace (lstrip_by c_isspace a) in
  let '(neg, body) :=
    match a with
    | c :: a' =>
        if (c =? ch "-")%N then (true, a')
        else if (c =? ch "+")%N then (false, a')
        else (false, a)
    | [] => (false, a)
    end in
  match digits body false 0%Z 0 with
  | Some (v, n) =>
      if (n <=? max_str_digits)%nat
      then Some (if neg then (- v)%Z else v)
      else None
  | None => None
  end.
End Int.

End Py.

(** ** [urllib.parse]: the part of [urlparse] the resolver reads

    After CPython 3.11's [Lib/urllib/parse.py].  Two checks of the library
    rest on tables that are not modelled and are parameters here: the NFKC
    normal form of the Unicode database ([unicodedata.normalize]), and the
    validation of a bracketed host ([_check_bracketed_netloc], which calls
    the [ipaddress] module). *)

Module UrlParse.
Import Py.

Record ParseResult : Type := MkParseResult {
  scheme : str;
  netloc : str;
  path : str;
  params : str;
  query : str;
  fragment : str
}.

Definition uses_params : list str :=
  List.map u [""; "ftp"; "hdl"; "prospero"; "http"; "imap"; "https";
              "shttp"; "rtsp"; "rtspu"; "sip"; "sips"; "mms"; "sftp";
              "tel"]%string.

(** [c in scheme_chars]: letters, digits and [+-.]. *)
Definition scheme_char (c : N) : bool :=
  is_ascii_alpha c || is_digit c
  || (c =? ch "+")%N || (c =? ch "-")%N || (c =? ch ".")%N.

(** [_WHATWG_C0_CONTROL_OR_SPACE]. *)
Definition c0_control_or_space (c : N) : bool := (c <=? 32)%N.

(** [_UNSAFE_URL_BYTES_TO_REMOVE]: tab, carriage return, line feed. *)
Definition unsafe_url_bytes_to_remove : list N := [9; 13; 10]%N.

Definition invalid_ipv6_url : exn :=
  Exn ValueError (u "Invalid IPv6 URL").

Section Parse.
(** [unicodedata.normalize('NFKC', s)]. *)
Variable nfkc : str -> str.
(** Whether [_check_bracketed_netloc] raises, and what. *)
Variable check_bracketed_netloc : str -> option exn.

(** [_splitnetloc(url, 2)]: the authority ends at the first of [/?#]. *)
Definition splitnetloc2 (url : str) : str * str :=
  span (fun c => negb ((c =? ch "/") || (c =? ch "?") || (c =? ch "#"))%N)
       (skipn 2 url).

Definition checknetloc (netloc : str) : result unit :=
  match netloc with
  | [] => Ok tt
  | _ :: _ =>
      if forallb is_ascii netloc then Ok tt
      else
        let n := remove_char (ch "?")
                   (remove_char (ch "#")
                      (remove_char (ch ":")
                         (remove_char (ch "@") netloc))) in
        let netloc2 := nfkc n in
        if str_eqb n netloc2 then Ok tt
        else if existsb (fun c => contains c netloc2) (u "/?#@:")
        then Raise (Exn ValueError
                      (u "netloc '" ++ netloc
                         ++ u "' contains invalid characters under NFKC normalization"))
        else Ok tt
  end.

(** [urlsplit(url)], default [scheme=''] and [allow_fragments=True]. *)
Definition urlsplit (url : str) : result ParseResult :=
  let url := lstrip_by c0_control_or_space url in
  let url := fold_left (fun s b => remove_char b s)
                       unsafe_url_bytes_to_remove url in
  let '(scheme, url) :=
    match cut (ch ":") url with
    | Some (c :: pre, rest) =>
        if is_ascii c && is_ascii_alpha c && forallb scheme_char (c :: pre)
        then (lower_ascii (c :: pre), rest)
        else ([], url)
    | _ => ([], url)
    end in
  bind
    (if startswith url (u "//") then
       let '(netloc, url) := splitnetloc2 url in
       let open := contains (ch "[") netloc in
       let close := contains (ch "]") netloc in
       if (open && negb close) || (close && negb open)
       then Raise invalid_ipv6_url
       else if open && close then
         match check_bracketed_netloc netloc with
         | Some e => Raise e
         | None => Ok (netloc, url)
         end
       else Ok (netloc, url)
     else Ok ([], url))
    (fun '(netloc, url) =>
       let '(url, fragment) :=
         match cut (ch "#") url with
         | Some (a, b) => (a, b)
         | None => (url, [])
         end in
       let '(url, query) :=
         match cut (ch "?") url with
         | Some (a, b) => (a, b)
         | None => (url, [])
         end in
       bind (checknetloc netloc)
         (fun _ => Ok (MkParseResult scheme netloc url [] query fragment))).

(** [_splitparams(url)]: the parameters start at the first [;] of the
    last path segment. *)
Definition splitparams (url : str) : str * str :=
  match rcut (ch "/") url with
  | Some (dir, last) =>
      match cut (ch ";") last with
      | Some (a, b) => (dir ++ ch "/" :: a, b)
      | None => (url, [])
      end
  | None =>
      match cut (ch ";") url with
      | Some (a, b) => (a, b)
      | None => (removelast url, url)   (* [url[:-1], url[0:]] *)
      end
  end.

Definition urlparse (url : str) : result ParseResult :=
  bind (urlsplit url)
    (fun r =>
       if existsb (str_eqb (scheme r)) uses_params
          && contains (ch ";") (path r)
       then let '(url, params) := splitparams (path r) in
            Ok (MkParseResult (scheme r) (netloc r) url params
                              (query r) (fragment r))
       else Ok r).
End Parse.

End UrlParse.

(** ** The program: [scrape_for_n8n.py] *)

Module Scraper.
Import Py.

Section Resolver.
Variable todecimal : N -> option N.
Variable nfkc : str -> str.
Variable check_bracketed_netloc : str -> option exn.

(** The test of line 20. *)
Definition is_link (identifier : str) : bool :=
  startswith_any identifier [u "http://"; u "https://"].

(** [[p for p in parsed.path.split("/") if p]]. *)
Definition path_parts (path : str) : list str :=
  filter (fun p => negb (str_eqb p [])) (split (ch "/") path).

(** The non-empty path segments of a link; raises what [urlparse]
    raises. *)
Definition link_parts (identifier : str) : result (list str) :=
  bind (UrlParse.urlparse nfkc check_bracketed_netloc identifier)
       (fun parsed => Ok (path_parts (UrlParse.path parsed))).

Definition parse_chat_identifier
           (raw_identifier : str) (topic_id_env : option Z)
  : result (str * option Z) :=
  let topic_id := topic_id_env in
  let identifier := strip raw_identifier in
  if is_link identifier then
    bind (link_parts identifier)
      (fun parts =>
         match parts with
         | [] => Ok (identifier, topic_id)
         | part0 :: rest =>
             let identifier := part0 in
             match rest, topic_id with
             | part1 :: _, None =>
                 match int_of_str todecimal part1 with
                 | Some n => Ok (identifier, Some n)
                 | None => Ok (identifier, None)     (* except ValueError: pass *)
                 end
             | _, _ => Ok (identifier, topic_id)
             end
         end)
  else Ok (identifier, topic_id).
End Resolver.

(** *** What the collaborator hands over *)

(** [msg.sender]; a sender without a [username] attribute and one whose
    [username] is [None] read the same through [getattr(.., None)]. *)
Record Sender : Type := MkSender { username : option str }.

(** The fields of a Telethon [Message] the program reads.  A timestamp is
    an aware UTC [datetime], held as microseconds since the epoch. *)
Record Message : Type := MkMessage {
  id : Z;
  date : option Z;
  sender_id : option Z;
  sender : option Sender;
  message : option str;
  reply_to_msg_id : option Z;
  action : option string
}.

(** An item of the paginated sequence: [isinstance(msg, Message)] or
    not. *)
Inductive item : Type :=
| IsMessage (msg : Message)
| NotMessage.

(** The resolved chat, opaque to the program. *)
Inductive entity : Type := Peer (peer_id : Z).

Record Args : Type := MkArgs {
  api_id : Z;
  api_hash : str;
  chat : str;
  days : Z;
  session : str;
  topic_id : option Z;
  phone_or_token : option str
}.

(** The collaborator as the program meets it: resolution may raise, a
    request for messages yields a sequence, the clock gives a time.
    [client.start], the paging of the sequence, [client.disconnect] and
    [json.dump] are calls that return: the program reads nothing from
    them, and the specification gives them no failure.  A run in which one
    of them raises is outside this model. *)
Record World : Type := MkWorld {
  get_entity : str -> result entity;
  iter_messages : entity -> bool -> option Z -> list item;
  now_utc : Z
}.

(** Calls on the collaborator and on standard output, in program order. *)
Inductive event : Type :=
| Start (phone : option str)
| GetEntity (chat_identifier : str)
| Disconnect
| IterMessages (e : entity) (reverse : bool) (reply_to : option Z)
| JsonDump (rows : list dict).

(** Computations that log events and may raise. *)
Definition IO (A : Type) : Type := list event -> list event * result A.

Definition ret {A} (a : A) : IO A := fun t => (t, Ok a).
Definition raise {A} (e : exn) : IO A := fun t => (t, Raise e).
Definition emit (ev : event) : IO unit := fun t => (t ++ [ev], Ok tt).
Definition lift {A} (r : result A) : IO A := fun t => (t, r).
Definition io_bind {A B} (c : IO A) (k : A -> IO B) : IO B :=
  fun t =>
    match c t with
    | (t', Ok a) => k a t'
    | (t', Raise e) => (t', Raise e)
    end.

Notation "x <- c ;; k" := (io_bind c (fun x => k))
  (at level 61, c at next level, right associativity).
Notation "' pat <- c ;; k" :=
  (io_bind c (fun x => match x with pat => k end))
  (at level 61, pat pattern, c at next level, right associativity).
Notation "c ;;; k" := (io_bind c (fun _ => k))
  (at level 61, right associativity).

(** [x or ""] for an optional text. *)
Definition or_empty (o : option str) : str :=
  match o with
  | Some (c :: s) => c :: s
  | _ => []
  end.

Definition microseconds_per_day : Z := 86400000000.

(** [str(n)] of an integer. *)
Definition str_of_int (n : Z) : str := u (NilZero.string_of_int (Z.to_int n)).

(** [timedelta(days=d)] in microseconds. *)
Definition timedelta_days (d : Z) : result Z :=
  if (Z.abs d <=? 999999999)%Z then Ok (d * microseconds_per_day)%Z
  else Raise (Exn OverflowError
                  (u "days=" ++ str_of_int d
                     ++ u "; must have magnitude <= 999999999")).

(** [datetime.min] and [datetime.max], microseconds since the epoch. *)
Definition datetime_min : Z := (-62135596800000000)%Z.
Definition datetime_max : Z := 253402300799999999%Z.

(** [dt - delta]. *)
Definition datetime_sub (dt delta : Z) : result Z :=
  let r := (dt - delta)%Z in
  if (datetime_min <=? r)%Z && (r <=? datetime_max)%Z then Ok r
  else Raise (Exn OverflowError (u "date value out of range")).

(** The classes named by the [except] clause of line 47. *)
Definition caught (c : exn_type) : bool :=
  match c with
  | UsernameInvalidError | UsernameNotOccupiedError | ChannelPrivateError => true
  | _ => false
  end.

Section Fetch.
Variable todecimal : N -> option N.
Variable nfkc : str -> str.
Variable check_bracketed_netloc : str -> option exn.
(** [repr(s)] of a text. *)
Variable repr : str -> str.

(** The dict of lines 68-77; [d] is [msg.date]. *)
Definition to_row (chat_identifier : str) (msg : Message) (d : Z) : dict :=
  [ ("chat_identifier", PyStr chat_identifier);
    ("message_id", PyInt (id msg));
    ("date", PyStr (isoformat d));
    ("sender_id", of_opt_int (sender_id msg));
    ("sender_username",
      of_opt_str (match sender msg with
                  | Some s => username s
                  | None => None
                  end));
    ("text", PyStr (or_empty (message msg)));
    ("reply_to_msg_id", of_opt_int (reply_to_msg_id msg));
    ("is_service", PyInt (match action msg with
                          | Some _ => 1
                          | None => 0
                          end)%Z) ]%string.

(** The loop of lines 59-78 over the items still to come: the rows
    collected, and the items never requested. *)
Fixpoint collect (chat_identifier : str) (cutoff : Z)
         (items : list item) (rows : list dict)
  : list dict * list item :=
  match items with
  | [] => (rows, [])
  | NotMessage :: rest => collect chat_identifier cutoff rest rows
  | IsMessage msg :: rest =>
      match date msg with
      | None => collect chat_identifier cutoff rest rows
      | Some d =>
          if (d <? cutoff)%Z then (rows, rest)
          else collect chat_identifier cutoff rest
                       (rows ++ [to_row chat_identifier msg d])
      end
  end.

Definition unable_to_access (chat_identifier : str) (e : exn) : exn :=
  Exn RuntimeError
      (u "Unable to access chat " ++ repr chat_identifier
         ++ u ": " ++ exn_text e).

(** Lines 34-83.  Building the [TelegramClient] object calls nothing and
    logs nothing; the sequence of [iter_messages] is consumed by
    [collect]. *)
Definition scrape (w : World) (args : Args) : IO unit :=
  ' (chat_identifier, topic_id) <-
      lift (parse_chat_identifier todecimal nfkc check_bracketed_netloc
                                  (chat args) (topic_id args)) ;;
  match phone_or_token args with
  | Some (c :: p) => emit (Start (Some (c :: p)))
  | _ => emit (Start None)
  end ;;;
  emit (GetEntity chat_identifier) ;;;
  e <- match get_entity w chat_identifier with
       | Ok e => ret e
       | Raise err =>
           if caught (exn_class err)
           then emit Disconnect ;;;
                raise (unable_to_access chat_identifier err)
           else raise err
       end ;;
  delta <- lift (timedelta_days (days args)) ;;
  cutoff <- lift (datetime_sub (now_utc w) delta) ;;
  let iter_kwargs := topic_id in
  emit (IterMessages e false iter_kwargs) ;;;
  let rows := fst (collect chat_identifier cutoff
                           (iter_messages w e false iter_kwargs) []) in
  emit Disconnect ;;;
  emit (JsonDump rows).

(** A whole run: the events logged and how it ended. *)
Definition run (w : World) (args : Args) : list event * result unit :=
  scrape w args [].
End Fetch.

End Scraper.

(** ** The collaborator's pagination contract

    Telethon documents [reverse] of [iter_messages] as: when set, messages
    come from oldest to newest, instead of the default newest to oldest.
    [history] is the chat's messages in chronological order; [in_thread]
    is the scoping [reply_to] asks for. *)

Module Telethon.
Import Py Scraper.

Definition iter_messages (in_thread : Z -> item -> bool)
           (history : list item) (reverse : bool) (reply_to : option Z)
  : list item :=
  let scoped :=
    match reply_to with
    | Some t => filter (in_thread t) history
    | None => history
    end in
  if reverse then scoped else rev scoped.

(** A world whose every chat has the given history. *)
Definition world (get_entity : str -> result entity)
           (in_thread : Z -> item -> bool) (history : list item) (now : Z)
  : World :=
  MkWorld get_entity (fun _ => iter_messages in_thread history) now.

End Telethon.

(** ** Instances used to evaluate the model on ASCII text *)

Module Sample.
Import Py Scraper.

(** No digit outside ASCII, NFKC leaving the text as it is, every
    bracketed host accepted: exact on the ASCII inputs below that have no
    bracket in the authority. *)
Definition todecimal (c : N) : option N := None.
Definition nfkc (s : str) : str := s.
Definition check_bracketed_netloc (s : str) : option exn := None.
(** [repr] of printable text with no quote and no backslash. *)
Definition repr (s : str) : str := ch "'" :: s ++ [ch "'"].

Definition parse := parse_chat_identifier todecimal nfkc check_bracketed_netloc.

(** Clock reading of the sample runs (2023-11-14T22:13:20 UTC) and one
    day, in microseconds. *)
Definition now : Z := 1700000000000000.
Definition day : Z := 86400000000.

Definition msg (i t : Z) : Message :=
  MkMessage i (Some t) (Some 7%Z) None (Some (u "hi")) None None.

(** A service message: pinned-message notice, no text. *)
Definition pinned (i t : Z) : Message :=
  MkMessage i (Some t) (Some 7%Z) None None None (Some "MessageActionPinMessage"%string).

(** A chat in chronological order: forty days, two days and one day old. *)
Definition history : list item :=
  [IsMessage (msg 1 (now - 40 * day)); IsMessage (pinned 2 (now - 2 * day));
   IsMessage (msg 3 (now - day))]%Z.

Definition args (c : string) : Args :=
  MkArgs 1%Z (u "hash") (u c) 30%Z (u "telethon_session") None None.

Definition private (chat : str) : result entity :=
  Raise (Exn ChannelPrivateError (u "The channel specified is private")).

Definition flood (chat : str) : result entity :=
  Raise (Exn (OtherError "FloodWaitError") (u "A wait of 30 seconds is required")).

Definition found (chat : str) : result entity := Ok (Peer 1%Z).

Definition world (resolve : str -> result entity) : World :=
  Telethon.world resolve (fun _ _ => true) history now.

Definition run := Scraper.run todecimal nfkc check_bracketed_netloc repr.

End Sample.
(** ** The properties, as formulas *)

Module Spec.
Import Py Scraper.

(** Timestamps in strictly decreasing order. *)
Fixpoint strictly_decreasing (ts : list Z) : Prop :=
  match ts with
  | a :: (b :: _) as rest => (b < a)%Z /\ strictly_decreasing rest
  | _ => True
  end.

(** The message is inside the window: its timestamp is not before the
    cutoff. *)
Definition in_window (cutoff : Z) (msg : Message) : bool :=
  match date msg with
  | Some d => (cutoff <=? d)%Z
  | None => false
  end.

(** The records of a sequence of dated messages. *)
Definition projection (chat_identifier : str) (msgs : list Message) : list dict :=
  flat_map (fun msg => match date msg with
                       | Some d => [to_row chat_identifier msg d]
                       | None => []
                       end) msgs.

(** The invariant the data model states for a chat reference. *)
Definition chat_reference_invariant (r : str * option Z) : Prop :=
  strip (fst r) <> [] /\ forall n, snd r = Some n -> (0 < n)%Z.

(** Every request for messages in the trace asks for oldest first. *)
Definition requests_oldest_first (trace : list event) : Prop :=
  forall e reverse reply_to,
    In (IterMessages e reverse reply_to) trace -> reverse = true.

(** The three causes of the [except] clause. *)
Definition resolution_causes : list exn_type :=
  [UsernameInvalidError; UsernameNotOccupiedError; ChannelPrivateError].

(** What [client.start] is called with. *)
Definition start_event (args : Args) : event :=
  match phone_or_token args with
  | Some (c :: p) => Start (Some (c :: p))
  | _ => Start None
  end.

Definition message_ids (rows : list dict) : list (option pyval) :=
  List.map (dict_get "message_id") rows.

(** Text of ASCII characters with no square bracket. *)
Definition plain_char (c : N) : bool :=
  is_ascii c && negb (c =? ch "[")%N && negb (c =? ch "]")%N.

Definition plain_text (s : str) : Prop :=
  Forall (fun c => plain_char c = true) s.
End Spec.

(** ** Vocabulary of the further properties *)

Module Props.
Import Py Scraper Spec.

(** The messages of a sequence that pass lines 60-63: genuine messages
    with a timestamp. *)
Fixpoint dated (items : list item) : list Message :=
  match items with
  | [] => []
  | NotMessage :: rest => dated rest
  | IsMessage msg :: rest =>
      match date msg with
      | Some _ => msg :: dated rest
      | None => dated rest
      end
  end.

(** The timestamps of a sequence of messages, undated ones left out. *)
Definition stamps (msgs : list Message) : list Z :=
  flat_map (fun msg => match date msg with
                       | Some d => [d]
                       | None => []
                       end) msgs.

Fixpoint take_while {A : Type} (p : A -> bool) (l : list A) : list A :=
  match l with
  | [] => []
  | x :: l' => if p x then x :: take_while p l' else []
  end.

(** Timestamps in chronological order; equal neighbours allowed. *)
Fixpoint chronological (ts : list Z) : Prop :=
  match ts with
  | a :: (b :: _) as rest => (a <= b)%Z /\ chronological rest
  | _ => True
  end.

(** A character no integer literal holds: ASCII, and neither a digit, a
    sign, an underscore nor a blank. *)
Definition never_in_int (c : N) : bool :=
  (c <? 127)%N && negb (is_digit c) && negb (c_isspace c)
  && negb (c =? ch "+")%N && negb (c =? ch "-")%N && negb (c =? ch "_")%N.

(** The record of a message, as lines 68-77 build it from the message and
    its timestamp. *)
Definition is_record_of (chat_identifier : str) (msg : Message) (row : dict)
  : Prop :=
  exists d, date msg = Some d /\ row = to_row chat_identifier msg d.

(** The part of a chat's history a request is scoped to. *)
Definition scoped (in_thread : Z -> item -> bool) (history : list item)
           (reply_to : option Z) : list item :=
  match reply_to with
  | Some t => filter (in_thread t) history
  | None => history
  end.

(** The keys of an output record, in the order they are written. *)
Definition row_keys : list string :=
  ["chat_identifier"; "message_id"; "date"; "sender_id"; "sender_username";
   "text"; "reply_to_msg_id"; "is_service"]%string.

Definition is_disconnect (ev : event) : bool :=
  match ev with Disconnect => true | _ => false end.

Definition is_json_dump (ev : event) : bool :=
  match ev with JsonDump _ => true | _ => false end.

(** The two prefixes line 20 tests for. *)
Definition link_prefixes : list str := [u "http://"; u "https://"].

(** A character the URL splitter removes: tab, carriage return, line
    feed. *)
Definition removed_char (c : N) : bool :=
  ((c =? 9) || (c =? 13) || (c =? 10))%N.

(** A character that ends the authority: [/], [?] or [#]. *)
Definition authority_end (c : N) : bool :=
  ((c =? ch "/") || (c =? ch "?") || (c =? ch "#"))%N.

(** An authority the splitter takes whole and accepts: plain characters,
    none removed, none ending it. *)
Definition host_text (host : str) : Prop :=
  Forall (fun c => plain_char c = true /\ removed_char c = false
                   /\ authority_end c = false) host.

(** A path the splitter leaves as it is: empty or starting with [/],
    with no [?], [#] or [;] and no removed character. *)
Definition path_char (c : N) : bool :=
  negb (removed_char c) && negb (c =? ch "?")%N && negb (c =? ch "#")%N
  && negb (c =? ch ";")%N.

Definition path_text (path : str) : Prop :=
  match path with
  | [] => True
  | c :: _ => c = ch "/"
  end /\ Forall (fun c => path_char c = true) path.

(** What may follow the path: nothing, or a query or fragment opened by
    [?] or [#]. *)
Definition tail_text (tail : str) : Prop :=
  match tail with
  | [] => True
  | c :: _ => c = ch "?" \/ c = ch "#"
  end.

(** A path segment: non-empty, path characters, no [/]. *)
Definition segment_text (seg : str) : Prop :=
  seg <> [] /\ Forall (fun c => path_char c = true /\ c <> ch "/") seg.

(** The value of a sequence of ASCII digits, most significant first. *)
Definition decimal_value (ds : str) : Z :=
  fold_left (fun acc c => 10 * acc + (Z.of_N c - 48))%Z ds 0%Z.

Definition digit_text (ds : str) : Prop :=
  ds <> [] /\ Forall (fun c => is_digit c = true) ds
  /\ (List.length ds <= max_str_digits)%nat.

(** What the URL splitter does first: tab, carriage return and line feed
    are taken out. *)
Definition sanitize (s : str) : str :=
  fold_left (fun s b => remove_char b s) UrlParse.unsafe_url_bytes_to_remove s.

(** The scheme of each link prefix. *)
Definition link_schemes : list (str * str) :=
  [(u "http", u "http://"); (u "https", u "https://")].

(** [urlsplit] from the point where scheme and authority are known: the
    bracket checks on the authority, then fragment, query and the NFKC
    check. *)
Definition after_authority (nfkc : str -> str)
           (check_bracketed_netloc : str -> option exn)
           (scheme netloc url : str) : result UrlParse.ParseResult :=
  bind
    (let open := contains (ch "[") netloc in
     let close := contains (ch "]") netloc in
     if (open && negb close) || (close && negb open)
     then Raise UrlParse.invalid_ipv6_url
     else if open && close then
       match check_bracketed_netloc netloc with
       | Some e => Raise e
       | None => Ok (netloc, url)
       end
     else Ok (netloc, url))
    (fun '(netloc, url) =>
       let '(url, fragment) :=
         match cut (ch "#") url with
         | Some (a, b) => (a, b)
         | None => (url, [])
         end in
       let '(url, query) :=
         match cut (ch "?") url with
         | Some (a, b) => (a, b)
         | None => (url, [])
         end in
       bind (UrlParse.checknetloc nfkc netloc)
         (fun _ => Ok (UrlParse.MkParseResult scheme netloc url [] query
                                              fragment))).

End Props.

(** ** Text lemmas *)

Import Py Scraper Spec Props.

Lemma rstrip_by_cons_keep (p : N -> bool) (c : N) (s : str) :
  p c = false -> rstrip_by p (c :: s) = c :: rstrip_by p s.
Proof.
  intros Hc. simpl. destruct (rstrip_by p s); [rewrite Hc|]; reflexivity.
Qed.

Lemma lstrip_by_keep (p : N -> bool) (c : N) (s : str) :
  p c = false -> lstrip_by p (c :: s) = c :: s.
Proof. intros Hc. simpl. now rewrite Hc. Qed.

Lemma startswith_rstrip (prefix : str) :
  forall s,
    forallb (fun c => negb (isspace c)) prefix = true ->
    startswith s prefix = true ->
    startswith (rstrip_by isspace s) prefix = true.
Proof.
  induction prefix as [|a prefix IH]; intros s Hp Hs.
  - now destruct (rstrip_by isspace s).
  - destruct s as [|b s]; [discriminate|].
    simpl in Hp, Hs.
    apply andb_true_iff in Hp as [Ha Hp].
    apply andb_true_iff in Hs as [Hab Hs].
    apply N.eqb_eq in Hab. subst b.
    rewrite rstrip_by_cons_keep by now apply negb_true_iff.
    simpl. rewrite N.eqb_refl. simpl. now apply IH.
Qed.

Lemma startswith_strip (prefix : str) (s : str) :
  prefix <> [] ->
  forallb (fun c => negb (isspace c)) prefix = true ->
  startswith s prefix = true ->
  startswith (strip s) prefix = true.
Proof.
  intros Hne Hp Hs. unfold strip.
  destruct prefix as [|a prefix]; [contradiction|].
  destruct s as [|b s]; [discriminate|].
  assert (Hb : isspace b = false).
  { simpl in Hp, Hs.
    apply andb_true_iff in Hp as [Ha _].
    apply andb_true_iff in Hs as [Hab _].
    apply N.eqb_eq in Hab. subst b. now apply negb_true_iff. }
  rewrite lstrip_by_keep by exact Hb.
  now apply startswith_rstrip.
Qed.

(** A link stays a link when trimmed: the scheme prefix holds no white
    space. *)
Lemma is_link_strip (raw : str) :
  is_link raw = true -> is_link (strip raw) = true.
Proof.
  unfold is_link, startswith_any. simpl existsb.
  rewrite !orb_false_r, !orb_true_iff.
  intros [H|H]; [left|right];
    (apply startswith_strip; [discriminate | reflexivity | exact H]).
Qed.

Lemma path_parts_nonempty (path p : str) :
  In p (path_parts path) -> p <> [].
Proof.
  unfold path_parts. intros H. apply filter_In in H as [_ H].
  intros ->. discriminate.
Qed.

(** ** What [urlparse] accepts

    Every step of the splitting keeps a part of the text it is given, so
    the authority of a plain text is plain: no bracket to match and nothing
    to normalise. *)

Lemma lstrip_by_incl (p : N -> bool) (s : str) : incl (lstrip_by p s) s.
Proof.
  induction s as [|c s IH]; simpl; [apply incl_refl|].
  destruct (p c); [now apply incl_tl|apply incl_refl].
Qed.

Lemma rstrip_by_incl (p : N -> bool) (s : str) : incl (rstrip_by p s) s.
Proof.
  induction s as [|c s IH]; simpl; [apply incl_refl|].
  destruct (rstrip_by p s) as [|r rs].
  - destruct (p c); [apply incl_nil_l|].
    intros x [<-|[]]. now left.
  - intros x [<-|Hx]; [now left|right; now apply IH].
Qed.

Lemma strip_incl (s : str) : incl (strip s) s.
Proof.
  unfold strip. eapply incl_tran; [apply rstrip_by_incl|apply lstrip_by_incl].
Qed.

Lemma remove_char_incl (c : N) (s : str) : incl (remove_char c s) s.
Proof. apply incl_filter. Qed.

Lemma cut_incl (c : N) (s : str) :
  forall a b, cut c s = Some (a, b) -> incl a s /\ incl b s.
Proof.
  induction s as [|x s IH]; intros a b H; simpl in H; [discriminate|].
  destruct (x =? c)%N.
  - injection H as <- <-. split; [apply incl_nil_l|now apply incl_tl].
  - destruct (cut c s) as [[a' b']|]; [|discriminate].
    injection H as <- <-. destruct (IH a' b' eq_refl) as [Ha Hb].
    split; [|now apply incl_tl].
    intros y [<-|Hy]; [now left|right; now apply Ha].
Qed.

Lemma span_incl (p : N -> bool) (s : str) :
  incl (fst (span p s)) s /\ incl (snd (span p s)) s.
Proof.
  induction s as [|x s [IHa IHb]]; simpl; [split; apply incl_refl|].
  destruct (p x); [|split; [apply incl_nil_l|apply incl_refl]].
  destruct (span p s) as [a b]. simpl in *. split.
  - intros y [<-|Hy]; [now left|right; now apply IHa].
  - now apply incl_tl.
Qed.

Lemma skipn_incl (n : nat) (s : str) : incl (skipn n s) s.
Proof.
  revert s. induction n as [|n IH]; intros [|x s]; simpl;
    try apply incl_refl.
  apply incl_tl, IH.
Qed.

Lemma plain_text_incl (s t : str) : incl s t -> plain_text t -> plain_text s.
Proof.
  unfold plain_text. rewrite !Forall_forall. intros Hi Ht c Hc. auto.
Qed.

Lemma plain_text_ascii (s : str) : plain_text s -> forallb is_ascii s = true.
Proof.
  unfold plain_text. rewrite Forall_forall, forallb_forall.
  intros H c Hc. specialize (H c Hc). unfold plain_char in H.
  now apply andb_true_iff in H as [H%andb_true_iff _].
Qed.

Lemma plain_text_no_bracket (s : str) :
  plain_text s ->
  contains (ch "[") s = false /\ contains (ch "]") s = false.
Proof.
  unfold plain_text, contains. rewrite Forall_forall. intros H.
  split; apply not_true_is_false; intros Hex;
    apply existsb_exists in Hex as (c & Hc & Heq);
    apply N.eqb_eq in Heq; subst c;
    specialize (H _ Hc); discriminate H.
Qed.

Section UrlFacts.
Variable nfkc : str -> str.
Variable check_bracketed_netloc : str -> option exn.

Lemma checknetloc_plain (netloc : str) :
  plain_text netloc -> UrlParse.checknetloc nfkc netloc = Ok tt.
Proof.
  intros H. unfold UrlParse.checknetloc.
  destruct netloc; [reflexivity|].
  now rewrite (plain_text_ascii _ H).
Qed.

Lemma urlsplit_plain (url : str) :
  plain_text url ->
  exists r, UrlParse.urlsplit nfkc check_bracketed_netloc url = Ok r.
Proof.
  intros Hplain. unfold UrlParse.urlsplit.
  set (url1 := fold_left _ _ _).
  assert (H1 : plain_text url1).
  { subst url1. simpl.
    repeat (eapply plain_text_incl; [apply remove_char_incl|]).
    eapply plain_text_incl; [apply lstrip_by_incl|exact Hplain]. }
  clearbody url1.
  set (sch := match cut _ url1 with Some (c :: pre, rest) => _ | _ => _ end).
  assert (H2 : plain_text (snd sch)).
  { subst sch. destruct (cut (ch ":") url1) as [[[|c pre] rest]|] eqn:Hcut;
      try exact H1.
    destruct (_ && _); [|exact H1].
    apply (plain_text_incl _ url1); [|exact H1].
    now apply (cut_incl _ _ _ _ Hcut). }
  destruct sch as [scheme url2]. simpl in H2.
  set (auth := if startswith url2 (u "//") then _ else _).
  assert (H3 : exists netloc url3,
             auth = Ok (netloc, url3) /\ plain_text netloc).
  { subst auth. destruct (startswith url2 (u "//")).
    - unfold UrlParse.splitnetloc2.
      set (p := fun c : N => _).
      destruct (span_incl p (skipn 2 url2)) as [Ha _].
      destruct (span p (skipn 2 url2)) as [netloc url3]. cbn [fst] in Ha.
      assert (Hn : plain_text netloc).
      { apply (plain_text_incl _ url2); [|exact H2].
        eapply incl_tran; [exact Ha|apply (skipn_incl 2 url2)]. }
      destruct (plain_text_no_bracket _ Hn) as [-> ->]. simpl.
      now exists netloc, url3.
    - exists [], url2. split; [reflexivity|constructor]. }
  destruct H3 as (netloc & url3 & -> & Hn). simpl.
  destruct (cut _ url3) as [[url4 fragment]|];
    (destruct (cut _ _) as [[url5 query]|];
     rewrite (checknetloc_plain _ Hn); simpl; eauto).
Qed.

(** A link of ASCII characters with no square bracket is split: its
    segments are there. *)
Lemma link_parts_plain (url : str) :
  plain_text url ->
  exists parts, link_parts nfkc check_bracketed_netloc url = Ok parts.
Proof.
  intros H. unfold link_parts, UrlParse.urlparse.
  destruct (urlsplit_plain url H) as [r ->]. simpl.
  destruct (_ && _); [destruct (UrlParse.splitparams _)|]; simpl; eauto.
Qed.

End UrlFacts.

(** ** The identifier resolver *)

Section ResolverFacts.
Variable todecimal : N -> option N.
Variable nfkc : str -> str.
Variable check_bracketed_netloc : str -> option exn.

Local Abbreviation parse :=
  (parse_chat_identifier todecimal nfkc check_bracketed_netloc).
Local Abbreviation parts_of := (link_parts nfkc check_bracketed_netloc).

(** The resolver by cases: what it returns on text that is not a link, and
    on a link by the number of path segments. *)
Lemma parse_not_link (raw : str) (topic : option Z) :
  is_link (strip raw) = false -> parse raw topic = Ok (strip raw, topic).
Proof. intros H. unfold parse_chat_identifier. now rewrite H. Qed.

Lemma parse_link (raw : str) (topic : option Z) (parts : list str) :
  is_link (strip raw) = true ->
  parts_of (strip raw) = Ok parts ->
  parse raw topic =
    match parts with
    | [] => Ok (strip raw, topic)
    | part0 :: rest =>
        match rest, topic with
        | part1 :: _, None => Ok (part0, int_of_str todecimal part1)
        | _, _ => Ok (part0, topic)
        end
    end.
Proof.
  intros Hl Hp. unfold parse_chat_identifier. rewrite Hl, Hp. simpl.
  destruct parts as [|part0 [|part1 rest]]; try reflexivity.
  destruct topic; [reflexivity|].
  now destruct (int_of_str todecimal part1).
Qed.

Lemma parse_link_raises (raw : str) (topic : option Z) (e : exn) :
  is_link (strip raw) = true ->
  parts_of (strip raw) = Raise e ->
  parse raw topic = Raise e.
Proof. intros Hl Hp. unfold parse_chat_identifier. now rewrite Hl, Hp. Qed.

Lemma parts_of_nonempty (s : str) (parts : list str) (p : str) :
  parts_of s = Ok parts -> In p parts -> p <> [].
Proof.
  unfold link_parts. destruct (UrlParse.urlparse _ _ s) as [parsed|e]; simpl.
  - intros [= <-]. apply path_parts_nonempty.
  - discriminate.
Qed.

(** The inputs the resolver is shown to return on: text that is not a
    link once trimmed, plain text, and any link [urlparse] splits. *)
Lemma accepted_input (raw : str) :
  is_link (strip raw) = false
  \/ plain_text raw
  \/ (exists parts, parts_of (strip raw) = Ok parts) ->
  is_link (strip raw) = false
  \/ (exists parts, parts_of (strip raw) = Ok parts).
Proof.
  intros [H|[H|H]]; [now left| |now right].
  right. apply link_parts_plain.
  apply (plain_text_incl _ raw); [apply strip_incl|exact H].
Qed.

(** C3, amended: on every input whose trimmed form is not a link, on every
    input of ASCII characters with no square bracket, and on every link the
    URL parser splits, a supplied topic id is returned as it is, whatever
    the link holds. *)
Theorem supplied_topic_takes_precedence (raw : str) (t : Z) :
  is_link (strip raw) = false
  \/ plain_text raw
  \/ (exists parts, parts_of (strip raw) = Ok parts) ->
  exists identifier, parse raw (Some t) = Ok (identifier, Some t).
Proof.
  intros Hacc. apply accepted_input in Hacc as [Hn|[parts Hp]].
  - exists (strip raw). now apply parse_not_link.
  - destruct (is_link (strip raw)) eqn:Hl.
    + rewrite (parse_link raw (Some t) _ Hl Hp).
      destruct parts as [|part0 [|part1 rest]]; eauto.
    + exists (strip raw). now apply parse_not_link.
Qed.

(** C6, amended: when the trimmed input does not begin with [http://] or
    [https://], the resolver returns the trimmed input for identifier and
    the topic id as passed in. *)
Theorem plain_handle_is_trimmed (raw : str) (topic : option Z) :
  is_link (strip raw) = false ->
  parse raw topic = Ok (strip raw, topic).
Proof.
  intros Hplain. unfold parse_chat_identifier.
  rewrite Hplain. reflexivity.
Qed.

(** C7, amended: when the resolver returns, the identifier is non-empty
    provided the trimmed input is, and the topic id is either the one passed
    in or, when none was passed in, what [int] reads from the second path
    segment of the link; its sign is not checked. *)
Theorem chat_reference_shape
        (raw : str) (topic : option Z) (identifier : str) (tid : option Z) :
  parse raw topic = Ok (identifier, tid) ->
  (strip raw <> [] -> identifier <> [])
  /\ (tid = topic
      \/ (topic = None
          /\ exists part0 part1 rest,
               parts_of (strip raw) = Ok (part0 :: part1 :: rest)
               /\ tid = int_of_str todecimal part1)).
Proof.
  intros H.
  destruct (is_link (strip raw)) eqn:Hl.
  - destruct (parts_of (strip raw)) as [parts|e] eqn:Hp.
    + rewrite (parse_link raw topic _ Hl Hp) in H.
      destruct parts as [|part0 [|part1 rest]].
      * injection H as <- <-. auto.
      * injection H as <- <-. split; [|auto].
        intros _. apply (parts_of_nonempty _ _ _ Hp). now left.
      * assert (Hne : part0 <> [])
          by (apply (parts_of_nonempty _ _ _ Hp); now left).
        destruct topic as [t|]; injection H as <- <-; split; auto.
        right. split; [reflexivity|]. now exists part0, part1, rest.
    + rewrite (parse_link_raises raw topic _ Hl Hp) in H. discriminate.
  - rewrite (parse_not_link raw topic Hl) in H. injection H as <- <-. auto.
Qed.

(** C8, amended: the resolver returns a pair on every input whose trimmed
    form is not a link, on every input of ASCII characters with no square
    bracket, and on every link the URL parser splits; there, a second path
    segment that [int] rejects gives an absent topic id, not an error. *)
Theorem parse_returns_on_accepted_input (raw : str) (topic : option Z) :
  is_link (strip raw) = false
  \/ plain_text raw
  \/ (exists parts, parts_of (strip raw) = Ok parts) ->
  exists identifier tid,
    parse raw topic = Ok (identifier, tid)
    /\ forall part0 part1 rest,
         is_link (strip raw) = true ->
         parts_of (strip raw) = Ok (part0 :: part1 :: rest) ->
         topic = None ->
         int_of_str todecimal part1 = None ->
         identifier = part0 /\ tid = None.
Proof.
  intros Hacc. apply accepted_input in Hacc.
  destruct (is_link (strip raw)) eqn:Hl.
  - destruct Hacc as [Hn|[parts Hp]]; [discriminate|].
    rewrite (parse_link raw topic _ Hl Hp).
    destruct parts as [|part0 [|part1 rest]].
    + do 2 eexists. split; [reflexivity|].
      intros ? ? ? _ Hq. rewrite Hp in Hq. discriminate Hq.
    + do 2 eexists. split; [reflexivity|].
      intros ? ? ? _ Hq. rewrite Hp in Hq. discriminate Hq.
    + destruct topic as [t|].
      * do 2 eexists. split; [reflexivity|]. intros ? ? ? _ _ Hq. discriminate Hq.
      * do 2 eexists. split; [reflexivity|].
        intros p0 p1 r _ Hq _ Hint. rewrite Hp in Hq.
        injection Hq as <- <- <-. now rewrite Hint.
  - rewrite (parse_not_link raw topic Hl).
    do 2 eexists. split; [reflexivity|]. intros ? ? ? Hq. discriminate Hq.
Qed.

(** An authority with an opening bracket and no closing one makes
    [urlparse], and so the resolver, raise [ValueError], whatever the
    tables. *)
Lemma unmatched_bracket_raises (topic : option Z) :
  parse (u "http://[") topic = Raise UrlParse.invalid_ipv6_url.
Proof. reflexivity. Qed.

End ResolverFacts.

(** ** The fetch loop *)

Section LoopFacts.
Variable chat_identifier : str.
Variable cutoff : Z.

Local Abbreviation loop := (collect chat_identifier cutoff).

(** The rows already collected stay in front. *)
Lemma collect_rows_prefix (items : list item) :
  forall rows,
    loop items rows = (rows ++ fst (loop items []), snd (loop items [])).
Proof.
  induction items as [|it items IH]; intros rows; simpl.
  - now rewrite app_nil_r.
  - destruct it as [msg|]; [|apply IH].
    destruct (date msg) as [d|]; [|apply IH].
    destruct (d <? cutoff)%Z.
    + now rewrite app_nil_r.
    + rewrite (IH (rows ++ _)), (IH [_]). simpl. now rewrite <- app_assoc.
Qed.

Lemma decreasing_below (ts : list Z) :
  forall a, strictly_decreasing (a :: ts) -> (a < cutoff)%Z ->
            Forall (fun t => (t < cutoff)%Z) ts.
Proof.
  induction ts as [|b ts IH]; intros a Hd Ha; constructor.
  - destruct Hd as [Hba _]. lia.
  - destruct Hd as [Hba Hd]. apply (IH b Hd). lia.
Qed.

Lemma all_before_window (msgs : list Message) :
  forall ts, List.map date msgs = List.map Some ts ->
             Forall (fun t => (t < cutoff)%Z) ts ->
             filter (in_window cutoff) msgs = []
             /\ Forall (fun msg => in_window cutoff msg = false) msgs.
Proof.
  induction msgs as [|msg msgs IH]; intros [|t ts] Hm Hall;
    try discriminate; [now split|].
  simpl in Hm. injection Hm as Hd Hm.
  inversion Hall as [|? ? Ht Hts]; subst.
  destruct (IH ts Hm Hts) as [Hf Hb].
  assert (Hw : in_window cutoff msg = false).
  { unfold in_window. rewrite Hd. apply Z.leb_gt. exact Ht. }
  simpl. rewrite Hw. split; [exact Hf|now constructor].
Qed.

(** C1: on messages with strictly decreasing timestamps the rows collected
    are the records of the messages at or after the cutoff, which form a
    prefix of the sequence, in the order supplied; the first message before
    the cutoff ends the loop and nothing after it is requested. *)
Theorem collect_window_prefix (msgs : list Message) (ts : list Z) :
  List.map date msgs = List.map Some ts ->
  strictly_decreasing ts ->
  exists older,
    msgs = filter (in_window cutoff) msgs ++ older
    /\ Forall (fun msg => in_window cutoff msg = false) older
    /\ loop (List.map IsMessage msgs) [] =
         (projection chat_identifier (filter (in_window cutoff) msgs),
          List.map IsMessage (tl older)).
Proof.
  revert ts.
  induction msgs as [|msg msgs IH]; intros [|t ts] Hm Hd; try discriminate.
  - exists []. repeat split. constructor.
  - simpl in Hm. injection Hm as Hdate Hm.
    assert (Hd' : strictly_decreasing ts) by (destruct ts; [exact I | apply Hd]).
    assert (Hw : in_window cutoff msg = (cutoff <=? t)%Z)
      by (unfold in_window; now rewrite Hdate).
    simpl. rewrite Hdate, Hw.
    destruct (t <? cutoff)%Z eqn:Hlt.
    + apply Z.ltb_lt in Hlt.
      destruct (all_before_window msgs ts Hm (decreasing_below ts t Hd Hlt))
        as [Hf Hb].
      assert (Hout : (cutoff <=? t)%Z = false) by (apply Z.leb_gt; lia).
      rewrite Hout, Hf.
      exists (msg :: msgs). repeat split.
      constructor; [now rewrite Hw|exact Hb].
    + apply Z.ltb_ge in Hlt.
      assert (Hin : (cutoff <=? t)%Z = true) by (apply Z.leb_le; lia).
      rewrite Hin.
      destruct (IH ts Hm Hd') as (older & Hsplit & Hold & Hloop).
      exists older. split; [|split].
      * simpl. now rewrite <- Hsplit.
      * exact Hold.
      * rewrite collect_rows_prefix, Hloop. simpl. now rewrite Hdate.
Qed.

(** Every row collected is the record of a dated message of the
    sequence. *)
Lemma collect_rows_origin (items : list item) :
  forall rows row,
    In row (fst (loop items rows)) ->
    In row rows
    \/ exists msg d, In (IsMessage msg) items /\ date msg = Some d
                     /\ row = to_row chat_identifier msg d.
Proof.
  induction items as [|it items IH]; intros rows row Hin; simpl in Hin.
  - now left.
  - destruct it as [msg|].
    + destruct (date msg) as [d|] eqn:Hd.
      * destruct (d <? cutoff)%Z; [now left|].
        destruct (IH _ _ Hin) as [Hr|(m & d' & Hm & Hd' & Hrow)].
        -- apply in_app_or in Hr as [Hr|[<-|[]]]; [now left|].
           right. exists msg, d. repeat split; [now left|exact Hd].
        -- right. exists m, d'. repeat split; [now right|exact Hd'|exact Hrow].
      * destruct (IH _ _ Hin) as [Hr|(m & d' & Hm & Hd' & Hrow)]; [now left|].
        right. exists m, d'. repeat split; [now right|exact Hd'|exact Hrow].
    + destruct (IH _ _ Hin) as [Hr|(m & d' & Hm & Hd' & Hrow)]; [now left|].
      right. exists m, d'. repeat split; [now right|exact Hd'|exact Hrow].
Qed.

End LoopFacts.

(** ** A whole run *)

Section RunFacts.
Variable todecimal : N -> option N.
Variable nfkc : str -> str.
Variable check_bracketed_netloc : str -> option exn.
Variable repr : str -> str.

Local Abbreviation parse :=
  (parse_chat_identifier todecimal nfkc check_bracketed_netloc).
Local Abbreviation run_of :=
  (run todecimal nfkc check_bracketed_netloc repr).

Lemma caught_causes (c : exn_type) :
  caught c = true <-> In c resolution_causes.
Proof.
  unfold resolution_causes. split.
  - destruct c; simpl; intros H; try discriminate; auto.
  - intros [<-|[<-|[<-|[]]]]; reflexivity.
Qed.

(** The run up to entity resolution. *)
Lemma run_until_resolution
      (w : World) (args : Args) (chat_identifier : str) (topic : option Z) :
  parse (chat args) (topic_id args) = Ok (chat_identifier, topic) ->
  run_of w args =
    match get_entity w chat_identifier with
    | Raise err =>
        if caught (exn_class err)
        then ([start_event args; GetEntity chat_identifier; Disconnect],
              Raise (unable_to_access repr chat_identifier err))
        else ([start_event args; GetEntity chat_identifier], Raise err)
    | Ok e =>
        match timedelta_days (days args) with
        | Raise err => ([start_event args; GetEntity chat_identifier], Raise err)
        | Ok delta =>
            match datetime_sub (now_utc w) delta with
            | Raise err =>
                ([start_event args; GetEntity chat_identifier], Raise err)
            | Ok cutoff =>
                ([start_event args; GetEntity chat_identifier;
                  IterMessages e false topic; Disconnect;
                  JsonDump (fst (collect chat_identifier cutoff
                                         (iter_messages w e false topic) []))],
                 Ok tt)
            end
        end
    end.
Proof.
  intros Hp. unfold run, scrape, io_bind, lift, start_event. rewrite Hp.
  destruct (phone_or_token args) as [[|c p]|]; cbn;
    (destruct (get_entity w chat_identifier) as [e|err]; cbn;
     [ destruct (timedelta_days (days args)) as [delta|err]; cbn;
       [ destruct (datetime_sub (now_utc w) delta) as [cutoff|err]; cbn;
         reflexivity
       | reflexivity ]
     | destruct (caught (exn_class err)); reflexivity ]).
Qed.

(** C4: when resolution fails with one of the three causes, the run
    disconnects right after the failed resolution and then raises one
    [RuntimeError] whose text holds the [repr] of the chat identifier and
    the text of the cause; a failure of any other class is not caught: it is
    raised as it is, with no disconnect. *)
Theorem resolution_failure
        (w : World) (args : Args) (chat_identifier : str) (topic : option Z)
        (err : exn) :
  parse (chat args) (topic_id args) = Ok (chat_identifier, topic) ->
  get_entity w chat_identifier = Raise err ->
  (In (exn_class err) resolution_causes ->
   run_of w args =
     ([start_event args; GetEntity chat_identifier; Disconnect],
      Raise (Exn RuntimeError
                 (u "Unable to access chat " ++ repr chat_identifier
                    ++ u ": " ++ exn_text err))))
  /\ (~ In (exn_class err) resolution_causes ->
      run_of w args =
        ([start_event args; GetEntity chat_identifier], Raise err)).
Proof.
  intros Hp Hg.
  rewrite (run_until_resolution w args chat_identifier topic Hp), Hg.
  split; intros Hc.
  - apply caught_causes in Hc. now rewrite Hc.
  - destruct (caught (exn_class err)) eqn:Hk; [|reflexivity].
    apply caught_causes in Hk. contradiction.
Qed.

(** C9, amended: every request for messages a run makes has
    [reverse=False], which under the collaborator's contract yields the
    chat's messages from newest to oldest: the chronological history
    reversed. *)
Theorem requests_newest_first
        (w : World) (args : Args)
        (e : entity) (reverse : bool) (reply_to : option Z) :
  In (IterMessages e reverse reply_to) (fst (run_of w args)) ->
  reverse = false
  /\ forall in_thread history,
       Telethon.iter_messages in_thread history reverse reply_to =
         rev (match reply_to with
              | Some t => filter (in_thread t) history
              | None => history
              end).
Proof.
  intros Hin.
  assert (Hr : reverse = false).
  { destruct (parse (chat args) (topic_id args)) as [[chat_identifier topic]|err] eqn:Hp.
    - rewrite (run_until_resolution w args chat_identifier topic Hp) in Hin.
      unfold start_event in Hin.
      destruct (get_entity w chat_identifier) as [e'|err].
      + destruct (timedelta_days (days args)) as [delta|err].
        * destruct (datetime_sub (now_utc w) delta) as [cutoff|err];
            destruct (phone_or_token args) as [[|c p]|]; simpl in Hin;
            repeat (destruct Hin as [Hin|Hin]; try discriminate Hin);
            try contradiction; congruence.
        * destruct (phone_or_token args) as [[|c p]|]; simpl in Hin;
            repeat (destruct Hin as [Hin|Hin]; try discriminate Hin);
            contradiction.
      + destruct (caught (exn_class err));
          destruct (phone_or_token args) as [[|c p]|]; simpl in Hin;
          repeat (destruct Hin as [Hin|Hin]; try discriminate Hin);
          contradiction.
    - unfold run, scrape, io_bind, lift in Hin. rewrite Hp in Hin.
      contradiction. }
  subst reverse. split; [reflexivity|]. intros in_thread history. reflexivity.
Qed.

(** A run that returns went through the five calls in order, and what it
    prints is what the loop collects from the sequence it asked for. *)
Lemma run_returns
      (w : World) (args : Args) (trace : list event) :
  run_of w args = (trace, Ok tt) ->
  exists chat_identifier topic e cutoff,
    parse (chat args) (topic_id args) = Ok (chat_identifier, topic)
    /\ get_entity w chat_identifier = Ok e
    /\ trace =
         [start_event args; GetEntity chat_identifier;
          IterMessages e false topic; Disconnect;
          JsonDump (fst (collect chat_identifier cutoff
                                 (iter_messages w e false topic) []))].
Proof.
  intros Hrun.
  destruct (parse (chat args) (topic_id args)) as [[chat_identifier topic]|err] eqn:Hp.
  - rewrite (run_until_resolution w args chat_identifier topic Hp) in Hrun.
    destruct (get_entity w chat_identifier) as [e|err] eqn:Hg.
    + destruct (timedelta_days (days args)) as [delta|err]; [|discriminate].
      destruct (datetime_sub (now_utc w) delta) as [cutoff|err]; [|discriminate].
      injection Hrun as <-. now exists chat_identifier, topic, e, cutoff.
    + destruct (caught (exn_class err)); discriminate.
  - unfold run, scrape, io_bind, lift in Hrun. rewrite Hp in Hrun. discriminate.
Qed.

End RunFacts.

(** ** The model on sample inputs *)

Example parse_handle :
  Sample.parse (u "durov") None = Ok (u "durov", None).
Proof. reflexivity. Qed.

Example parse_numeric_topic :
  Sample.parse (u "https://t.me/durov/42") None = Ok (u "durov", Some 42%Z).
Proof. reflexivity. Qed.

Example parse_word_topic :
  Sample.parse (u "https://t.me/durov/abc") None = Ok (u "durov", None).
Proof. reflexivity. Qed.

Example parse_supplied_topic :
  Sample.parse (u "https://t.me/durov/42") (Some 7%Z) = Ok (u "durov", Some 7%Z).
Proof. reflexivity. Qed.

Example parse_blank_segment :
  Sample.parse (u "https://t.me/ /x") None = Ok (u " ", None).
Proof. reflexivity. Qed.

Example parse_params_and_query :
  Sample.parse (u "https://t.me/a/-5;x?y") None = Ok (u "a", Some (-5)%Z).
Proof. reflexivity. Qed.

Example int_of_str_samples :
  List.map (int_of_str Sample.todecimal)
           [u " 12 "; u "+1"; u "1_000"; u "012"; u "_1"; u "1_"; u "+ 1";
            u ""; u "0x10"; [28; 49]%N; [133; 49]%N]
  = [Some 12; Some 1; Some 1000; Some 12; None; None; None; None; None;
     None; Some 1]%Z.
Proof. reflexivity. Qed.

Example isoformat_samples :
  List.map isoformat [0; 1709210096123456; -1]%Z
  = [u "1970-01-01T00:00:00+00:00"; u "2024-02-29T12:34:56.123456+00:00";
     u "1969-12-31T23:59:59.999999+00:00"].
Proof. reflexivity. Qed.

Example run_sample :
  Sample.run (Sample.world Sample.found) (Sample.args "durov")
  = ([Start None; GetEntity (u "durov"); IterMessages (Peer 1) false None;
      Disconnect;
      JsonDump [to_row (u "durov") (Sample.msg 3 (Sample.now - Sample.day))
                       (Sample.now - Sample.day);
                to_row (u "durov") (Sample.pinned 2 (Sample.now - 2 * Sample.day))
                       (Sample.now - 2 * Sample.day)]%Z],
     Ok tt).
Proof. reflexivity. Qed.

Example run_other_failure :
  Sample.run (Sample.world Sample.flood) (Sample.args "durov")
  = ([Start None; GetEntity (u "durov")],
     Raise (Exn (OtherError "FloodWaitError") (u "A wait of 30 seconds is required"))).
Proof. reflexivity. Qed.

(** ** The theorems at sample inputs, and where the stated properties stop *)

Lemma collect_window_prefix_witness :
  let msgs := [Sample.msg 3 300; Sample.msg 2 200; Sample.msg 1 100]%Z in
  List.map date msgs = List.map Some [300; 200; 100]%Z
  /\ strictly_decreasing [300; 200; 100]%Z
  /\ exists older,
       msgs = filter (in_window 150) msgs ++ older
       /\ Forall (fun msg => in_window 150 msg = false) older
       /\ collect (u "durov") 150 (List.map IsMessage msgs) [] =
            (projection (u "durov") (filter (in_window 150) msgs),
             List.map IsMessage (tl older)).
Proof.
  split; [reflexivity|]. split; [simpl; lia|].
  apply (collect_window_prefix (u "durov") 150
           [Sample.msg 3 300; Sample.msg 2 200; Sample.msg 1 100]%Z
           [300; 200; 100]%Z).
  - reflexivity.
  - simpl. lia.
Defined.

Lemma supplied_topic_takes_precedence_witness :
  exists identifier,
    Sample.parse (u "https://t.me/durov/42") (Some 7%Z) = Ok (identifier, Some 7%Z).
Proof.
  apply (supplied_topic_takes_precedence Sample.todecimal Sample.nfkc
           Sample.check_bracketed_netloc (u "https://t.me/durov/42") 7%Z).
  right. right. exists [u "durov"; u "42"]. reflexivity.
Defined.

(** C3 as stated: the supplied topic id is not returned for a link the URL
    parser rejects; the call raises [ValueError]. *)
Lemma supplied_topic_counterexample :
  Sample.parse (u "http://[") (Some 5%Z) = Raise UrlParse.invalid_ipv6_url
  /\ ~ exists identifier,
         Sample.parse (u "http://[") (Some 5%Z) = Ok (identifier, Some 5%Z).
Proof.
  split; [reflexivity|]. intros [identifier H]. discriminate H.
Qed.

Lemma resolution_failure_witness :
  In ChannelPrivateError resolution_causes
  /\ Sample.run (Sample.world Sample.private) (Sample.args "durov") =
       ([Start None; GetEntity (u "durov"); Disconnect],
        Raise (Exn RuntimeError
                   (u "Unable to access chat 'durov': The channel specified is private"))).
Proof.
  split; [right; right; left; reflexivity|].
  apply (resolution_failure Sample.todecimal Sample.nfkc
           Sample.check_bracketed_netloc Sample.repr
           (Sample.world Sample.private) (Sample.args "durov")
           (u "durov") None
           (Exn ChannelPrivateError (u "The channel specified is private"))).
  - reflexivity.
  - reflexivity.
  - right; right; left; reflexivity.
Defined.

(** C5 as stated: the record of a retained service message holds the
    integer 1 under [is_service], not the boolean [True]. *)
Lemma is_service_counterexample :
  let row := to_row (u "durov") (Sample.pinned 2 200) 200 in
  fst (collect (u "durov") 100 [IsMessage (Sample.pinned 2 200)] []) = [row]
  /\ action (Sample.pinned 2 200) <> None
  /\ dict_get "is_service" row = Some (PyInt 1)
  /\ dict_get "is_service" row <> Some (PyBool true).
Proof.
  repeat split; discriminate.
Qed.

Lemma plain_handle_is_trimmed_witness :
  is_link (strip (u " durov ")) = false
  /\ Sample.parse (u " durov ") (Some 3%Z) = Ok (strip (u " durov "), Some 3%Z).
Proof.
  split; [reflexivity|].
  apply (plain_handle_is_trimmed Sample.todecimal Sample.nfkc
           Sample.check_bracketed_netloc (u " durov ") (Some 3%Z)).
  reflexivity.
Defined.

(** C6 as stated: an input that does not begin with a scheme is not
    returned unchanged when white space surrounds it, and a link after
    leading white space is still resolved as a link. *)
Lemma plain_handle_counterexample :
  (is_link (u " durov") = false
   /\ Sample.parse (u " durov") None = Ok (u "durov", None)
   /\ Sample.parse (u " durov") None <> Ok (u " durov", None))
  /\ (is_link (u " https://t.me/durov/42") = false
      /\ Sample.parse (u " https://t.me/durov/42") None
         = Ok (u "durov", Some 42%Z)).
Proof.
  repeat split. discriminate.
Qed.

Lemma chat_reference_shape_witness :
  Sample.parse (u "https://t.me/c/0") None = Ok (u "c", Some 0%Z)
  /\ (strip (u "https://t.me/c/0") <> [] -> u "c" <> [])
  /\ (Some 0%Z = None
      \/ (@None Z = None
          /\ exists part0 part1 rest,
               link_parts Sample.nfkc Sample.check_bracketed_netloc
                          (strip (u "https://t.me/c/0"))
               = Ok (part0 :: part1 :: rest)
               /\ Some 0%Z = int_of_str Sample.todecimal part1)).
Proof.
  split; [reflexivity|].
  apply (chat_reference_shape Sample.todecimal Sample.nfkc
           Sample.check_bracketed_netloc
           (u "https://t.me/c/0") None (u "c") (Some 0%Z)).
  reflexivity.
Defined.

(** C7 as stated: the empty input gives an empty identifier, a blank path
    segment gives an identifier that is empty once trimmed, and a topic
    segment [0] gives a topic id that is not positive. *)
Lemma chat_reference_invariant_counterexample :
  (Sample.parse [] None = Ok ([], None)
   /\ ~ chat_reference_invariant ([], None))
  /\ (Sample.parse (u "https://t.me/ /x") None = Ok (u " ", None)
      /\ ~ chat_reference_invariant (u " ", None))
  /\ (Sample.parse (u "https://t.me/c/0") None = Ok (u "c", Some 0%Z)
      /\ ~ chat_reference_invariant (u "c", Some 0%Z)).
Proof.
  repeat split.
  - intros [H _]. now apply H.
  - intros [H _]. now apply H.
  - intros [_ H]. specialize (H 0%Z eq_refl). lia.
Qed.

Lemma parse_returns_on_accepted_input_witness :
  exists identifier tid,
    Sample.parse (u "https://t.me/durov/abc") None = Ok (identifier, tid)
    /\ forall part0 part1 rest,
         is_link (strip (u "https://t.me/durov/abc")) = true ->
         link_parts Sample.nfkc Sample.check_bracketed_netloc
                    (strip (u "https://t.me/durov/abc"))
         = Ok (part0 :: part1 :: rest) ->
         @None Z = None ->
         int_of_str Sample.todecimal part1 = None ->
         identifier = part0 /\ tid = None.
Proof.
  apply (parse_returns_on_accepted_input Sample.todecimal Sample.nfkc
           Sample.check_bracketed_netloc (u "https://t.me/durov/abc") None).
  right. right. exists [u "durov"; u "abc"]. reflexivity.
Defined.

(** C8 as stated: on a link with an unmatched bracket in the authority the
    resolver returns no pair; [urlparse] raises and nothing catches it. *)
Lemma parse_total_counterexample :
  Sample.parse (u "http://[") None = Raise UrlParse.invalid_ipv6_url
  /\ ~ exists identifier tid,
         Sample.parse (u "http://[") None = Ok (identifier, tid).
Proof.
  split; [reflexivity|]. intros (identifier & tid & H). discriminate H.
Qed.

Lemma requests_newest_first_witness :
  In (IterMessages (Peer 1) false None)
     (fst (Sample.run (Sample.world Sample.found) (Sample.args "durov")))
  /\ false = false
  /\ forall in_thread history,
       Telethon.iter_messages in_thread history false None = rev history.
Proof.
  split; [simpl; auto|].
  apply (requests_newest_first Sample.todecimal Sample.nfkc
           Sample.check_bracketed_netloc Sample.repr
           (Sample.world Sample.found) (Sample.args "durov")
           (Peer 1) false None).
  simpl. auto.
Defined.

(** C9 as stated: the request of a run is not for oldest first, and the
    rows come out newest first (message 3 before message 2). *)
Lemma requests_oldest_first_counterexample :
  ~ requests_oldest_first
      (fst (Sample.run (Sample.world Sample.found) (Sample.args "durov")))
  /\ exists rows,
       In (JsonDump rows)
          (fst (Sample.run (Sample.world Sample.found) (Sample.args "durov")))
       /\ message_ids rows = [Some (PyInt 3); Some (PyInt 2)].
Proof.
  split.
  - intros H. specialize (H (Peer 1) false None).
    assert (Hf : false = true) by (apply H; simpl; auto).
    discriminate Hf.
  - eexists. split; [simpl; do 4 right; left; reflexivity|reflexivity].
Qed.

(** * Further properties of the program *)

(** ** The loop on any sequence *)

Section LoopMore.
Variable chat_identifier : str.

Local Abbreviation loop := (collect chat_identifier).
Local Abbreviation records := (projection chat_identifier).

Lemma dated_has_date (items : list item) :
  Forall (fun msg => date msg <> None) (dated items).
Proof.
  induction items as [|[msg|] items IH]; simpl; auto.
  destruct (date msg) eqn:Hd; auto.
  constructor; [congruence|exact IH].
Qed.

Lemma dated_app (a b : list item) : dated (a ++ b) = dated a ++ dated b.
Proof.
  induction a as [|[msg|] a IH]; simpl; auto.
  destruct (date msg); simpl; now rewrite IH.
Qed.

Lemma dated_rev (items : list item) : dated (rev items) = rev (dated items).
Proof.
  induction items as [|[msg|] items IH]; simpl; auto;
    rewrite dated_app, IH; simpl.
  - destruct (date msg); simpl; [reflexivity|now rewrite app_nil_r].
  - now rewrite app_nil_r.
Qed.

Lemma projection_app (a b : list Message) :
  records (a ++ b) = records a ++ records b.
Proof. unfold projection. now rewrite flat_map_app. Qed.

Lemma projection_length (msgs : list Message) :
  Forall (fun msg => date msg <> None) msgs ->
  List.length (records msgs) = List.length msgs.
Proof.
  induction 1 as [|msg msgs Hd _ IH]; simpl; [reflexivity|].
  destruct (date msg); [simpl; now rewrite IH|contradiction].
Qed.

Lemma take_while_all {A : Type} (p : A -> bool) (l : list A) :
  Forall (fun x => p x = true) l -> take_while p l = l.
Proof. induction 1 as [|x l Hx _ IH]; simpl; [|rewrite Hx, IH]; reflexivity. Qed.

Lemma take_while_app_stop {A : Type} (p : A -> bool) (l : list A) (x : A)
      (r : list A) :
  Forall (fun y => p y = true) l -> p x = false ->
  take_while p (l ++ x :: r) = l.
Proof.
  induction 1 as [|y l Hy _ IH]; intros Hx; simpl.
  - now rewrite Hx.
  - now rewrite Hy, IH.
Qed.

(** The rows of the loop, with the rows it starts from. *)
Lemma collect_rows_from (cutoff : Z) (items : list item) (rows : list dict) :
  fst (loop cutoff items rows) =
    rows ++ records (take_while (in_window cutoff) (dated items)).
Proof.
  rewrite collect_rows_prefix. simpl. f_equal.
  induction items as [|[msg|] items IH]; simpl; auto.
  destruct (date msg) as [d|] eqn:Hd; [|exact IH].
  simpl. unfold in_window at 1. rewrite Hd.
  rewrite Z.ltb_antisym. destruct (cutoff <=? d)%Z; simpl; [|reflexivity].
  rewrite collect_rows_prefix. simpl. now rewrite Hd, IH.
Qed.

(** X1: on any sequence and any cutoff, the rows collected are the records
    of the longest run of in-window messages at the head of the dated
    messages: items that are not messages and messages without a timestamp
    are passed over, and the first dated message before the cutoff ends the
    collection even when in-window messages follow it. *)
Theorem collect_rows (cutoff : Z) (items : list item) :
  fst (loop cutoff items []) =
    records (take_while (in_window cutoff) (dated items)).
Proof.
  rewrite (collect_rows_from cutoff items []). reflexivity.
Qed.

(** X2: the loop stops, it does not skip: with a dated message before the
    cutoff anywhere in the sequence, and only in-window messages among the
    dated ones before it, the rows are the records of what comes before it,
    and the items after it are never requested. *)
Theorem collect_stops_at_first_old
        (cutoff : Z) (before : list item) (old : Message) (d : Z)
        (after : list item) :
  date old = Some d -> (d < cutoff)%Z ->
  Forall (fun msg => in_window cutoff msg = true) (dated before) ->
  loop cutoff (before ++ IsMessage old :: after) [] =
    (records (dated before), after).
Proof.
  intros Hd Hlt Hin.
  induction before as [|[msg|] before IH]; simpl.
  - rewrite Hd. apply Z.ltb_lt in Hlt. now rewrite Hlt.
  - simpl in Hin. destruct (date msg) as [dm|] eqn:Hdm; [|now apply IH].
    inversion Hin as [|? ? Hw Hrest]; subst.
    unfold in_window in Hw. rewrite Hdm in Hw.
    rewrite Z.ltb_antisym, Hw. simpl.
    rewrite collect_rows_prefix, (IH Hrest). simpl. now rewrite Hdm.
  - now apply IH.
Qed.

(** X3: when no dated message is before the cutoff, the sequence is
    requested to its end and every dated message gives one row. *)
Theorem collect_exhausts (cutoff : Z) (items : list item) :
  Forall (fun msg => in_window cutoff msg = true) (dated items) ->
  loop cutoff items [] = (records (dated items), [])
  /\ List.length (fst (loop cutoff items [])) = List.length (dated items).
Proof.
  intros Hin.
  assert (H : loop cutoff items [] = (records (dated items), [])).
  { induction items as [|[msg|] items IH]; simpl; auto.
    simpl in Hin. destruct (date msg) as [dm|] eqn:Hdm; [|now apply IH].
    inversion Hin as [|? ? Hw Hrest]; subst.
    unfold in_window in Hw. rewrite Hdm in Hw.
    rewrite Z.ltb_antisym, Hw. simpl.
    rewrite collect_rows_prefix, (IH Hrest). simpl. now rewrite Hdm. }
  split; [exact H|]. rewrite H. simpl.
  apply projection_length, dated_has_date.
Qed.

(** X4: moving the cutoff back only adds rows at the end: the rows for a
    later cutoff are a prefix of the rows for an earlier one. *)
Theorem collect_widens (cutoff earlier : Z) (items : list item) :
  (earlier <= cutoff)%Z ->
  exists more,
    fst (loop earlier items []) = fst (loop cutoff items []) ++ more.
Proof.
  intros Hle.
  induction items as [|[msg|] items IH]; simpl.
  - now exists [].
  - destruct (date msg) as [d|]; [|exact IH].
    destruct (d <? cutoff)%Z eqn:Hc.
    + simpl. eexists. reflexivity.
    + apply Z.ltb_ge in Hc.
      assert (He : (d <? earlier)%Z = false) by (apply Z.ltb_ge; lia).
      rewrite He. destruct IH as [more IH].
      exists more.
      rewrite (collect_rows_prefix _ earlier), (collect_rows_prefix _ cutoff).
      simpl. now rewrite IH.
  - exact IH.
Qed.

Lemma take_while_app_last {A : Type} (p : A -> bool) (l : list A) (x : A) :
  p x = false -> take_while p (l ++ [x]) = take_while p l.
Proof.
  intros Hx. induction l as [|y l IH]; simpl; [now rewrite Hx|].
  destruct (p y); [now rewrite IH|reflexivity].
Qed.

Lemma increasing_above (cutoff : Z) (ts : list Z) :
  forall a, chronological (a :: ts) -> (cutoff <= a)%Z ->
            Forall (fun t => (cutoff <= t)%Z) ts.
Proof.
  induction ts as [|b ts IH]; intros a Hi Ha; constructor.
  - destruct Hi as [Hab _]. lia.
  - destruct Hi as [Hab Hi]. apply (IH b Hi). lia.
Qed.

Lemma all_in_window (cutoff : Z) (msgs : list Message) :
  Forall (fun msg => date msg <> None) msgs ->
  Forall (fun t => (cutoff <= t)%Z) (stamps msgs) ->
  Forall (fun msg => in_window cutoff msg = true) msgs.
Proof.
  induction 1 as [|msg msgs Hd _ IH]; intros Hall; constructor.
  - unfold in_window. simpl in Hall.
    destruct (date msg) as [d|]; [|contradiction].
    inversion Hall; subst. now apply Z.leb_le.
  - apply IH. simpl in Hall.
    destruct (date msg); [now inversion Hall|contradiction].
Qed.

Lemma filter_all {A : Type} (p : A -> bool) (l : list A) :
  Forall (fun x => p x = true) l -> filter p l = l.
Proof. induction 1 as [|x l Hx _ IH]; simpl; [|rewrite Hx, IH]; reflexivity. Qed.

(** On messages in chronological order, read newest first, the run of
    in-window messages at the head is all the in-window messages. *)
Lemma take_while_newest_first (cutoff : Z) (msgs : list Message) :
  Forall (fun msg => date msg <> None) msgs ->
  chronological (stamps msgs) ->
  take_while (in_window cutoff) (rev msgs) =
    rev (filter (in_window cutoff) msgs).
Proof.
  induction 1 as [|msg msgs Hd Hall IH]; intros Hinc; [reflexivity|].
  simpl in Hinc. destruct (date msg) as [d|] eqn:Hdate; [|contradiction].
  simpl in Hinc.
  assert (Hinc' : chronological (stamps msgs))
    by (destruct (stamps msgs); [exact I|apply Hinc]).
  simpl. destruct (in_window cutoff msg) eqn:Hw.
  - assert (Hcd : (cutoff <= d)%Z).
    { unfold in_window in Hw. rewrite Hdate in Hw. now apply Z.leb_le. }
    pose proof (all_in_window cutoff msgs Hall
                  (increasing_above cutoff (stamps msgs) d Hinc Hcd)) as Hin.
    rewrite (filter_all _ _ Hin). apply take_while_all.
    apply Forall_app. split; [now apply Forall_rev|].
    constructor; [exact Hw|constructor].
  - rewrite take_while_app_last by exact Hw. now apply IH.
Qed.

End LoopMore.

(** ** Runs: what is called, and when *)

Section RunMore.
Variable todecimal : N -> option N.
Variable nfkc : str -> str.
Variable check_bracketed_netloc : str -> option exn.
Variable repr : str -> str.

Local Abbreviation parse :=
  (parse_chat_identifier todecimal nfkc check_bracketed_netloc).
Local Abbreviation run_of :=
  (run todecimal nfkc check_bracketed_netloc repr).

Lemma run_parse_raises (w : World) (args : Args) (err : exn) :
  parse (chat args) (topic_id args) = Raise err ->
  run_of w args = ([], Raise err).
Proof.
  intros Hp. unfold run, scrape, io_bind, lift. now rewrite Hp.
Qed.

(** The four ways a run can go, by the trace it leaves. *)
Lemma run_cases (w : World) (args : Args) :
  (exists err, run_of w args = ([], Raise err))
  \/ (exists chat_identifier err,
        run_of w args =
          ([start_event args; GetEntity chat_identifier], Raise err))
  \/ (exists chat_identifier err,
        run_of w args =
          ([start_event args; GetEntity chat_identifier; Disconnect],
           Raise err))
  \/ (exists chat_identifier e topic rows,
        run_of w args =
          ([start_event args; GetEntity chat_identifier;
            IterMessages e false topic; Disconnect; JsonDump rows], Ok tt)).
Proof.
  destruct (parse (chat args) (topic_id args))
    as [[chat_identifier topic]|err] eqn:Hp.
  - rewrite (run_until_resolution todecimal nfkc check_bracketed_netloc repr
               w args chat_identifier topic Hp).
    destruct (get_entity w chat_identifier) as [e|err].
    + destruct (timedelta_days (days args)) as [delta|err];
        [|right; left; eauto].
      destruct (datetime_sub (now_utc w) delta) as [cutoff|err];
        [|right; left; eauto].
      right; right; right. eauto 6.
    + destruct (caught (exn_class err));
        [right; right; left|right; left]; eauto.
  - left. exists err. now apply run_parse_raises.
Qed.

(** X6: the run that goes through.  When the chat reference resolves, the
    entity is found and the cutoff is a date, the run makes exactly five
    calls, in this order: start, resolve the identifier the resolver gave,
    ask for messages newest first scoped to the topic the resolver gave,
    disconnect, print; and what it prints is what the loop collects with
    the cutoff [days] whole days before the clock's time. *)
Theorem run_goes_through
        (w : World) (args : Args) (chat_identifier : str) (topic : option Z)
        (e : entity) :
  parse (chat args) (topic_id args) = Ok (chat_identifier, topic) ->
  get_entity w chat_identifier = Ok e ->
  (Z.abs (days args) <= 999999999)%Z ->
  (datetime_min <= now_utc w - days args * 86400000000 <= datetime_max)%Z ->
  run_of w args =
    ([start_event args; GetEntity chat_identifier;
      IterMessages e false topic; Disconnect;
      JsonDump (fst (collect chat_identifier
                             (now_utc w - days args * 86400000000)
                             (iter_messages w e false topic) []))],
     Ok tt).
Proof.
  intros Hp Hg Hdays Hrange.
  rewrite (run_until_resolution todecimal nfkc check_bracketed_netloc repr
             w args chat_identifier topic Hp), Hg.
  unfold timedelta_days, datetime_sub, microseconds_per_day.
  apply Z.leb_le in Hdays. rewrite Hdays.
  destruct Hrange as [Hlo Hhi].
  apply Z.leb_le in Hlo, Hhi. now rewrite Hlo, Hhi.
Qed.


(** X8: a day count the date arithmetic rejects leaves the session
    connected.  With the chat resolved, a [days] beyond 999999999 in
    magnitude, or one that puts the cutoff outside the years 1 to 9999,
    ends the run in [OverflowError] after start and resolution, with no
    disconnect. *)
Theorem day_count_out_of_range
        (w : World) (args : Args) (chat_identifier : str) (topic : option Z)
        (e : entity) :
  parse (chat args) (topic_id args) = Ok (chat_identifier, topic) ->
  get_entity w chat_identifier = Ok e ->
  (999999999 < Z.abs (days args)
   \/ now_utc w - days args * 86400000000 < datetime_min
   \/ datetime_max < now_utc w - days args * 86400000000)%Z ->
  exists err,
    exn_class err = OverflowError
    /\ run_of w args =
         ([start_event args; GetEntity chat_identifier], Raise err).
Proof.
  intros Hp Hg Hout.
  rewrite (run_until_resolution todecimal nfkc check_bracketed_netloc repr
             w args chat_identifier topic Hp), Hg.
  unfold timedelta_days, datetime_sub, microseconds_per_day.
  destruct (Z.abs (days args) <=? 999999999)%Z eqn:Hd.
  - apply Z.leb_le in Hd.
    destruct Hout as [Hout|Hout]; [lia|].
    assert (Hr : ((datetime_min <=? now_utc w - days args * 86400000000)
                  && (now_utc w - days args * 86400000000 <=? datetime_max))%Z
                 = false).
    { apply andb_false_iff.
      destruct Hout as [Hlo|Hhi]; [left|right]; apply Z.leb_gt; lia. }
    rewrite Hr. eexists. split; [|reflexivity]. reflexivity.
  - eexists. split; [|reflexivity]. reflexivity.
Qed.

(** X9: a chat reference the resolver rejects ends the run before
    anything is called: no start, no resolution, nothing printed.  The
    reference is then a link, and the error is the one [urlparse] raised on
    it. *)
Theorem rejected_reference_calls_nothing
        (w : World) (args : Args) (err : exn) :
  parse (chat args) (topic_id args) = Raise err ->
  run_of w args = ([], Raise err)
  /\ is_link (strip (chat args)) = true
  /\ UrlParse.urlparse nfkc check_bracketed_netloc (strip (chat args))
     = Raise err.
Proof.
  intros Hp. split; [now apply run_parse_raises|].
  unfold parse_chat_identifier in Hp.
  destruct (is_link (strip (chat args))); [|discriminate].
  split; [reflexivity|].
  unfold link_parts in Hp.
  destruct (UrlParse.urlparse nfkc check_bracketed_netloc (strip (chat args)))
    as [parsed|uerr]; simpl in Hp.
  - destruct (path_parts (UrlParse.path parsed)) as [|part0 [|part1 rest]];
      try discriminate.
    destruct (topic_id args); [discriminate|].
    destruct (int_of_str todecimal part1); discriminate.
  - now injection Hp as <-.
Qed.

(** X10: [client.start] is given the phone or token only when there is
    one: an absent value and the empty text both start the client with no
    argument. *)
Theorem start_argument
        (w : World) (args : Args) (r : str * option Z) :
  parse (chat args) (topic_id args) = Ok r ->
  (phone_or_token args = None \/ phone_or_token args = Some [] ->
   hd_error (fst (run_of w args)) = Some (Start None))
  /\ (forall p, phone_or_token args = Some p -> p <> [] ->
      hd_error (fst (run_of w args)) = Some (Start (Some p))).
Proof.
  intros Hp. destruct r as [chat_identifier topic].
  assert (Hhd : hd_error (fst (run_of w args)) = Some (start_event args)).
  { rewrite (run_until_resolution todecimal nfkc check_bracketed_netloc repr
               w args chat_identifier topic Hp).
    destruct (get_entity w chat_identifier) as [e|gerr].
    - destruct (timedelta_days (days args)) as [delta|terr]; [|reflexivity].
      now destruct (datetime_sub (now_utc w) delta).
    - now destruct (caught (exn_class gerr)). }
  rewrite Hhd. unfold start_event. split.
  - intros [-> | ->]; reflexivity.
  - intros p -> Hne. destruct p; [contradiction|reflexivity].
Qed.

(** X11: the request for messages is always for the entity resolved from
    the resolver's identifier and is scoped to the resolver's topic id; so
    a supplied topic id scopes the request whatever the chat reference
    holds, and a plain handle with no supplied topic id is not scoped. *)
Theorem request_scope
        (w : World) (args : Args)
        (e : entity) (reverse : bool) (reply_to : option Z) :
  In (IterMessages e reverse reply_to) (fst (run_of w args)) ->
  (exists chat_identifier,
     parse (chat args) (topic_id args) = Ok (chat_identifier, reply_to)
     /\ get_entity w chat_identifier = Ok e)
  /\ (forall t, topic_id args = Some t -> reply_to = Some t)
  /\ (topic_id args = None -> is_link (strip (chat args)) = false ->
      reply_to = None).
Proof.
  intros Hin.
  assert (H : exists chat_identifier,
             parse (chat args) (topic_id args) = Ok (chat_identifier, reply_to)
             /\ get_entity w chat_identifier = Ok e).
  { destruct (parse (chat args) (topic_id args))
      as [[chat_identifier topic]|perr] eqn:Hp.
    - rewrite (run_until_resolution todecimal nfkc check_bracketed_netloc repr
                 w args chat_identifier topic Hp) in Hin.
      unfold start_event in Hin.
      destruct (get_entity w chat_identifier) as [e'|gerr] eqn:Hg.
      + destruct (timedelta_days (days args)) as [delta|terr].
        * destruct (datetime_sub (now_utc w) delta) as [cutoff|derr];
            destruct (phone_or_token args) as [[|c p]|]; simpl in Hin;
            repeat (destruct Hin as [Hin|Hin]; try discriminate Hin);
            try contradiction;
            injection Hin as <- _ <-; exists chat_identifier; now split.
        * destruct (phone_or_token args) as [[|c p]|]; simpl in Hin;
            repeat (destruct Hin as [Hin|Hin]; try discriminate Hin);
            contradiction.
      + destruct (caught (exn_class gerr));
          destruct (phone_or_token args) as [[|c p]|]; simpl in Hin;
          repeat (destruct Hin as [Hin|Hin]; try discriminate Hin);
          contradiction.
    - rewrite (run_parse_raises w args perr Hp) in Hin. contradiction. }
  split; [exact H|]. destruct H as (chat_identifier & Hp & _).
  split.
  - intros t Ht. rewrite Ht in Hp.
    unfold parse_chat_identifier in Hp.
    destruct (is_link (strip (chat args))); [|now injection Hp as _ <-].
    destruct (link_parts nfkc check_bracketed_netloc (strip (chat args)))
      as [[|part0 [|part1 rest]]|uerr]; simpl in Hp;
      try discriminate; now injection Hp as _ <-.
  - intros Ht Hl. rewrite Ht in Hp.
    rewrite (parse_not_link todecimal nfkc check_bracketed_netloc
               (chat args) None Hl) in Hp.
    now injection Hp as _ <-.
Qed.

(** X12: end to end, under the collaborator's pagination contract and
    with the collaborator's calls returning.  When the chat reference
    resolves, the entity is found, the cutoff is a date and the scoped
    history is in chronological order (equal timestamps allowed), the run
    prints the records of exactly the dated messages of that history that
    are not before the cutoff, newest first. *)
Theorem run_prints_window
        (resolve : str -> result entity) (in_thread : Z -> item -> bool)
        (history : list item) (now : Z) (args : Args)
        (chat_identifier : str) (topic : option Z) (e : entity) :
  parse (chat args) (topic_id args) = Ok (chat_identifier, topic) ->
  resolve chat_identifier = Ok e ->
  (Z.abs (days args) <= 999999999)%Z ->
  (datetime_min <= now - days args * 86400000000 <= datetime_max)%Z ->
  chronological (stamps (dated (scoped in_thread history topic))) ->
  run_of (Telethon.world resolve in_thread history now) args =
    ([start_event args; GetEntity chat_identifier;
      IterMessages e false topic; Disconnect;
      JsonDump
        (projection chat_identifier
           (rev (filter (in_window (now - days args * 86400000000))
                        (dated (scoped in_thread history topic)))))],
     Ok tt).
Proof.
  intros Hp Hg Hdays Hrange Hinc.
  rewrite (run_until_resolution todecimal nfkc check_bracketed_netloc repr
             _ args chat_identifier topic Hp).
  simpl get_entity. rewrite Hg.
  unfold timedelta_days, datetime_sub, microseconds_per_day.
  apply Z.leb_le in Hdays. rewrite Hdays.
  destruct Hrange as [Hlo Hhi].
  apply Z.leb_le in Hlo, Hhi. simpl now_utc. rewrite Hlo, Hhi. simpl andb.
  cbv iota. do 6 f_equal.
  rewrite collect_rows_from. simpl app.
  change (iter_messages (Telethon.world resolve in_thread history now) e false topic)
    with (rev (scoped in_thread history topic)).
  rewrite dated_rev, take_while_newest_first;
    [reflexivity|apply dated_has_date|exact Hinc].
Qed.

End RunMore.

(** ** More on text *)

Lemma lstrip_by_all (p : N -> bool) (a s : str) :
  Forall (fun c => p c = true) a -> lstrip_by p (a ++ s) = lstrip_by p s.
Proof. induction 1 as [|c a Hc _ IH]; simpl; [|rewrite Hc]; auto. Qed.

Lemma rstrip_by_all (p : N -> bool) (b : str) :
  Forall (fun c => p c = true) b -> rstrip_by p b = [].
Proof.
  induction 1 as [|c b Hc _ IH]; simpl; [reflexivity|].
  now rewrite IH, Hc.
Qed.

Lemma rstrip_by_app_all (p : N -> bool) (s b : str) :
  Forall (fun c => p c = true) b -> rstrip_by p (s ++ b) = rstrip_by p s.
Proof.
  intros Hb. induction s as [|c s IH]; simpl.
  - now apply rstrip_by_all.
  - now rewrite IH.
Qed.

Lemma rstrip_by_keep_last (p : N -> bool) (s : str) (c : N) :
  p c = false -> rstrip_by p (s ++ [c]) = s ++ [c].
Proof.
  intros Hc. induction s as [|x s IH]; simpl.
  - now rewrite Hc.
  - rewrite IH. now destruct (s ++ [c]) eqn:E; [destruct s; discriminate E|].
Qed.

(** White space around a text that starts and ends with other characters
    is what [strip] removes, and nothing else. *)
Lemma strip_padded (a b s : str) (c0 c1 : N) :
  Forall (fun c => isspace c = true) a ->
  Forall (fun c => isspace c = true) b ->
  isspace c0 = false -> isspace c1 = false ->
  strip (a ++ (c0 :: s ++ [c1]) ++ b) = c0 :: s ++ [c1].
Proof.
  intros Ha Hb H0 H1. unfold strip.
  rewrite lstrip_by_all by exact Ha.
  simpl. rewrite H0.
  change (c0 :: (s ++ [c1]) ++ b) with ((c0 :: s ++ [c1]) ++ b).
  rewrite rstrip_by_app_all by exact Hb.
  apply (rstrip_by_keep_last isspace (c0 :: s) c1 H1).
Qed.

Lemma lstrip_by_head (p : N -> bool) (s : str) :
  match lstrip_by p s with
  | [] => True
  | c :: _ => p c = false
  end.
Proof.
  induction s as [|c s IH]; simpl; [exact I|].
  destruct (p c) eqn:Hc; [exact IH|exact Hc].
Qed.

Lemma rstrip_by_idem (p : N -> bool) (s : str) :
  rstrip_by p (rstrip_by p s) = rstrip_by p s.
Proof.
  induction s as [|c s IH]; simpl; [reflexivity|].
  destruct (rstrip_by p s) as [|r rs] eqn:E.
  - destruct (p c) eqn:Hc; simpl; [reflexivity|now rewrite Hc].
  - simpl. simpl in IH. now rewrite IH.
Qed.

Lemma rstrip_by_head (p : N -> bool) (s : str) (c : N) :
  match s with c :: _ => p c = false | [] => True end ->
  match rstrip_by p s with c :: _ => p c = false | [] => True end.
Proof.
  destruct s as [|x s]; simpl; [auto|]. intros Hx.
  destruct (rstrip_by p s); [now rewrite Hx|exact Hx].
Qed.

Lemma strip_idem (s : str) : strip (strip s) = strip s.
Proof.
  unfold strip.
  pose proof (rstrip_by_head isspace (lstrip_by isspace s) 0%N
                (lstrip_by_head isspace s)) as Hh.
  destruct (rstrip_by isspace (lstrip_by isspace s)) as [|c r] eqn:E;
    [reflexivity|].
  rewrite lstrip_by_keep by exact Hh.
  rewrite <- E. apply rstrip_by_idem.
Qed.

Lemma strip_all_space (s : str) :
  Forall (fun c => isspace c = true) s -> strip s = [].
Proof.
  intros H. unfold strip.
  rewrite <- (app_nil_r s), lstrip_by_all by exact H. reflexivity.
Qed.

Lemma cut_app (c : N) (a b : str) :
  ~ In c a -> cut c (a ++ c :: b) = Some (a, b).
Proof.
  induction a as [|x a IH]; intros Hn; simpl.
  - now rewrite N.eqb_refl.
  - destruct (x =? c)%N eqn:E.
    + apply N.eqb_eq in E. subst. exfalso. apply Hn. now left.
    + rewrite IH; [reflexivity|]. intros Hin. apply Hn. now right.
Qed.

Lemma cut_none (c : N) (s : str) : ~ In c s -> cut c s = None.
Proof.
  induction s as [|x s IH]; intros Hn; simpl; [reflexivity|].
  destruct (x =? c)%N eqn:E.
  - apply N.eqb_eq in E. subst. exfalso. apply Hn. now left.
  - rewrite IH; [reflexivity|]. intros Hin. apply Hn. now right.
Qed.

Lemma cut_spec (c : N) (s : str) :
  match cut c s with
  | Some (a, b) => s = a ++ c :: b /\ ~ In c a
  | None => ~ In c s
  end.
Proof.
  induction s as [|x s IH]; simpl; [tauto|].
  destruct (x =? c)%N eqn:E.
  - apply N.eqb_eq in E. subst. split; [reflexivity|tauto].
  - apply N.eqb_neq in E. destruct (cut c s) as [[a b]|].
    + destruct IH as [-> Hn]. split; [reflexivity|].
      intros [Hx|Hin]; [now apply E|now apply Hn].
    + intros [Hx|Hin]; [now apply E|now apply IH].
Qed.

Lemma rcut_spec (c : N) (s : str) :
  match rcut c s with
  | Some (a, b) => s = a ++ c :: b
  | None => True
  end.
Proof.
  induction s as [|x s IH]; simpl; [exact I|].
  destruct (rcut c s) as [[a b]|].
  - now rewrite IH.
  - destruct (x =? c)%N eqn:E; [|exact I].
    apply N.eqb_eq in E. now subst.
Qed.

Lemma cut_app_free (c : N) (a x : str) :
  ~ In c a ->
  cut c (a ++ x) =
    match cut c x with
    | Some (x1, x2) => Some (a ++ x1, x2)
    | None => None
    end.
Proof.
  induction a as [|y a IH]; intros Hn; simpl.
  - now destruct (cut c x) as [[x1 x2]|].
  - destruct (y =? c)%N eqn:E.
    + apply N.eqb_eq in E. subst. exfalso. apply Hn. now left.
    + rewrite IH by (intros Hin; apply Hn; now right).
      now destruct (cut c x) as [[x1 x2]|].
Qed.

Lemma span_app (p : N -> bool) (a x : str) :
  Forall (fun c => p c = true) a ->
  match x with c :: _ => p c = false | [] => True end ->
  span p (a ++ x) = (a, x).
Proof.
  intros Ha Hx. induction Ha as [|c a Hc _ IH]; simpl.
  - destruct x as [|c x]; [reflexivity|]. simpl. now rewrite Hx.
  - now rewrite Hc, IH.
Qed.

Lemma remove_char_clean (c : N) (s : str) :
  ~ In c s -> remove_char c s = s.
Proof.
  intros Hn. unfold remove_char.
  apply filter_all. apply Forall_forall. intros x Hx.
  apply negb_true_iff, N.eqb_neq. intros ->. now apply Hn.
Qed.

(** Every piece of a split is free of the separator and is part of the
    text. *)
Lemma split_pieces (c : N) (s : str) :
  Forall (fun piece => ~ In c piece /\ incl piece s) (split c s).
Proof.
  induction s as [|x s IH]; simpl.
  - constructor; [split; [tauto|apply incl_refl]|constructor].
  - destruct (x =? c)%N eqn:E.
    + constructor; [split; [tauto|apply incl_nil_l]|].
      eapply Forall_impl; [|exact IH].
      intros piece [Hn Hi]. split; [exact Hn|now apply incl_tl].
    + apply N.eqb_neq in E.
      destruct (split c s) as [|h t].
      * constructor; [|constructor]. split.
        -- intros [Hx|[]]. now apply E.
        -- intros y [<-|[]]. now left.
      * inversion IH as [|? ? [Hn Hi] Ht]; subst.
        constructor.
        -- split.
           ++ intros [Hx|Hin]; [now apply E|now apply Hn].
           ++ intros y [<-|Hy]; [now left|right; now apply Hi].
        -- eapply Forall_impl; [|exact Ht].
           intros piece [Hn' Hi']. split; [exact Hn'|now apply incl_tl].
Qed.

Lemma split_app (c : N) (a b : str) :
  ~ In c a -> split c (a ++ c :: b) = a :: split c b.
Proof.
  induction a as [|x a IH]; intros Hn; simpl.
  - now rewrite N.eqb_refl.
  - destruct (x =? c)%N eqn:E.
    + apply N.eqb_eq in E. subst. exfalso. apply Hn. now left.
    + rewrite IH by (intros Hin; apply Hn; now right). reflexivity.
Qed.

Lemma split_free (c : N) (a : str) : ~ In c a -> split c a = [a].
Proof.
  induction a as [|x a IH]; intros Hn; simpl; [reflexivity|].
  destruct (x =? c)%N eqn:E.
  - apply N.eqb_eq in E. subst. exfalso. apply Hn. now left.
  - rewrite IH by (intros Hin; apply Hn; now right). reflexivity.
Qed.

(** ** [int] on digits *)

Lemma is_digit_range (c : N) : is_digit c = true -> (48 <= c <= 57)%N.
Proof.
  unfold is_digit. intros H. apply andb_true_iff in H as [H1 H2].
  apply N.leb_le in H1, H2. lia.
Qed.

Lemma rstrip_by_none (p : N -> bool) (s : str) :
  Forall (fun c => p c = false) s -> rstrip_by p s = s.
Proof.
  induction 1 as [|c s Hc _ IH]; simpl; [reflexivity|].
  rewrite IH. destruct s; [now rewrite Hc|reflexivity].
Qed.

Lemma digits_all (s : str) :
  Forall (fun c => is_digit c = true) s ->
  forall prev acc n,
    s <> [] \/ prev = true ->
    digits s prev acc n =
      Some (fold_left (fun a c => 10 * a + (Z.of_N c - 48))%Z s acc,
            (n + List.length s)%nat).
Proof.
  induction 1 as [|c s Hc _ IH]; intros prev acc n Hne; simpl.
  - destruct Hne as [Hne| ->]; [contradiction|]. now rewrite Nat.add_0_r.
  - rewrite Hc, IH by now right. now rewrite Nat.add_succ_r.
Qed.

Section IntFacts.
Variable todecimal : N -> option N.

Lemma transform_digits (s : str) :
  Forall (fun c => is_digit c = true) s ->
  transform_decimal_and_space todecimal s = s.
Proof.
  induction 1 as [|c s Hc _ IH]; simpl; [reflexivity|].
  apply is_digit_range in Hc.
  assert (H : (c <? 127)%N = true) by (apply N.ltb_lt; lia).
  now rewrite H, IH.
Qed.

(** A text of one to 4300 ASCII digits reads as its decimal value. *)
Lemma int_of_digits (ds : str) :
  digit_text ds -> int_of_str todecimal ds = Some (decimal_value ds).
Proof.
  intros (Hne & Hd & Hlen). unfold int_of_str.
  rewrite transform_digits by exact Hd.
  assert (Hns : Forall (fun c => c_isspace c = false) ds).
  { eapply Forall_impl; [|exact Hd]. intros c Hc.
    apply is_digit_range in Hc. unfold c_isspace.
    apply orb_false_iff. split.
    - apply andb_false_iff. right. apply N.leb_gt. lia.
    - apply N.eqb_neq. lia. }
  destruct ds as [|c ds]; [contradiction|].
  inversion Hns as [|? ? Hc0 _]; subst.
  rewrite lstrip_by_keep by exact Hc0.
  rewrite rstrip_by_none by exact Hns.
  inversion Hd as [|? ? Hc _]; subst.
  pose proof (is_digit_range c Hc) as Hr.
  assert (Hm : (c =? ch "-")%N = false) by (apply N.eqb_neq; cbv; lia).
  assert (Hp : (c =? ch "+")%N = false) by (apply N.eqb_neq; cbv; lia).
  rewrite Hm, Hp.
  rewrite (digits_all (c :: ds) Hd false 0%Z 0%nat)
    by (left; discriminate).
  apply Nat.leb_le in Hlen. rewrite Nat.add_0_l, Hlen. reflexivity.
Qed.

End IntFacts.

(** ** [urlsplit] on a link *)

Lemma sanitize_app (a b : str) : sanitize (a ++ b) = sanitize a ++ sanitize b.
Proof.
  unfold sanitize, remove_char. simpl. now rewrite !filter_app.
Qed.

Lemma sanitize_clean (s : str) :
  Forall (fun c => removed_char c = false) s -> sanitize s = s.
Proof.
  intros H. unfold sanitize, remove_char. simpl.
  assert (Hall : forall b, In b UrlParse.unsafe_url_bytes_to_remove ->
                           Forall (fun x => negb (x =? b)%N = true) s).
  { intros b Hb. eapply Forall_impl; [|exact H]. intros c Hc.
    unfold removed_char in Hc.
    apply orb_false_iff in Hc as [Hc H10].
    apply orb_false_iff in Hc as [H9 H13].
    apply negb_true_iff.
    destruct Hb as [<-|[<-|[<-|[]]]]; assumption. }
  rewrite (filter_all _ s (Hall 9%N ltac:(simpl; auto))).
  rewrite (filter_all _ s (Hall 13%N ltac:(simpl; auto))).
  rewrite (filter_all _ s (Hall 10%N ltac:(simpl; auto))).
  reflexivity.
Qed.

Lemma sanitize_head (c : N) (s : str) :
  removed_char c = false -> sanitize (c :: s) = c :: sanitize s.
Proof.
  intros Hc.
  change (c :: s) with ([c] ++ s). rewrite sanitize_app.
  rewrite (sanitize_clean [c]); [reflexivity|].
  constructor; [exact Hc|constructor].
Qed.

Lemma startswith_app (prefix x : str) : startswith (prefix ++ x) prefix = true.
Proof.
  induction prefix as [|c prefix IH]; simpl.
  - now destruct x.
  - now rewrite N.eqb_refl, IH.
Qed.

Section UrlShape.
Variable nfkc : str -> str.
Variable check_bracketed_netloc : str -> option exn.

Local Abbreviation urlsplit := (UrlParse.urlsplit nfkc check_bracketed_netloc).
Local Abbreviation urlparse := (UrlParse.urlparse nfkc check_bracketed_netloc).

(** A link splits into its scheme, the authority up to the first of [/?#],
    and the rest. *)
Lemma urlsplit_link (scheme pre host rest : str) :
  In (scheme, pre) link_schemes ->
  Forall (fun c => removed_char c = false /\ authority_end c = false) host ->
  match rest with c :: _ => authority_end c = true | [] => True end ->
  urlsplit (pre ++ host ++ rest) =
    after_authority nfkc check_bracketed_netloc scheme host (sanitize rest).
Proof.
  intros Hpre Hhost Hrest.
  assert (Hclean : sanitize host = host).
  { apply sanitize_clean. eapply Forall_impl; [|exact Hhost]. now intros c []. }
  assert (Hspan : span (fun c => negb ((c =? ch "/") || (c =? ch "?") || (c =? ch "#"))%N)
                       (host ++ sanitize rest) = (host, sanitize rest)).
  { apply span_app.
    - eapply Forall_impl; [|exact Hhost]. intros c [_ Hc].
      unfold authority_end in Hc. now rewrite Hc.
    - destruct rest as [|c rest]; [exact I|].
      assert (Hrm : removed_char c = false).
      { unfold authority_end in Hrest. unfold removed_char.
        apply orb_true_iff in Hrest as [Hrest|Hrest];
          [apply orb_true_iff in Hrest as [Hrest|Hrest]|];
          apply N.eqb_eq in Hrest; subst c; reflexivity. }
      rewrite sanitize_head by exact Hrm.
      unfold authority_end in Hrest. now rewrite Hrest. }
  unfold UrlParse.urlsplit.
  fold (sanitize (lstrip_by UrlParse.c0_control_or_space (pre ++ host ++ rest))).
  destruct Hpre as [[= <- <-]|[[= <- <-]|[]]].
  - change (u "http://" ++ host ++ rest)
      with (104%N :: (u "ttp://" ++ host ++ rest)).
    rewrite lstrip_by_keep by reflexivity.
    change (104%N :: (u "ttp://" ++ host ++ rest))
      with (u "http://" ++ (host ++ rest)).
    rewrite !sanitize_app, Hclean.
    change (sanitize (u "http://")) with (u "http://").
    change (cut (ch ":") (u "http://" ++ host ++ sanitize rest))
      with (Some (104%N :: u "ttp", u "//" ++ host ++ sanitize rest)).
    cbv iota beta.
    change (is_ascii 104 && is_ascii_alpha 104
            && forallb UrlParse.scheme_char (104%N :: u "ttp")) with true.
    cbv iota beta.
    change (lower_ascii (104%N :: u "ttp")) with (u "http").
    rewrite (startswith_app (u "//")).
    cbv iota beta. unfold UrlParse.splitnetloc2.
    change (skipn 2 (u "//" ++ host ++ sanitize rest))
      with (host ++ sanitize rest).
    rewrite Hspan. reflexivity.
  - change (u "https://" ++ host ++ rest)
      with (104%N :: (u "ttps://" ++ host ++ rest)).
    rewrite lstrip_by_keep by reflexivity.
    change (104%N :: (u "ttps://" ++ host ++ rest))
      with (u "https://" ++ (host ++ rest)).
    rewrite !sanitize_app, Hclean.
    change (sanitize (u "https://")) with (u "https://").
    change (cut (ch ":") (u "https://" ++ host ++ sanitize rest))
      with (Some (104%N :: u "ttps", u "//" ++ host ++ sanitize rest)).
    cbv iota beta.
    change (is_ascii 104 && is_ascii_alpha 104
            && forallb UrlParse.scheme_char (104%N :: u "ttps")) with true.
    cbv iota beta.
    change (lower_ascii (104%N :: u "ttps")) with (u "https").
    rewrite (startswith_app (u "//")).
    cbv iota beta. unfold UrlParse.splitnetloc2.
    change (skipn 2 (u "//" ++ host ++ sanitize rest))
      with (host ++ sanitize rest).
    rewrite Hspan. reflexivity.
Qed.

Lemma host_text_plain (host : str) : host_text host -> plain_text host.
Proof.
  unfold host_text, plain_text. intros H.
  eapply Forall_impl; [|exact H]. now intros c [].
Qed.

Lemma path_text_free (path : str) (c : N) :
  Forall (fun x => path_char x = true) path ->
  path_char c = false -> ~ In c path.
Proof.
  rewrite Forall_forall. intros H Hc Hin. specialize (H c Hin). congruence.
Qed.

Lemma not_in_contains (c : N) (s : str) : ~ In c s -> contains c s = false.
Proof.
  intros Hn. unfold contains. apply not_true_is_false. intros Hex.
  apply existsb_exists in Hex as (x & Hx & Heq).
  apply N.eqb_eq in Heq. subst. contradiction.
Qed.

(** A link with a plain authority, a clean path and at most a query or a
    fragment after it parses to that path: authority, query and fragment
    play no part in the segments. *)
Lemma link_parts_well_formed (scheme pre host path tail : str) :
  In (scheme, pre) link_schemes ->
  host_text host -> path_text path -> tail_text tail ->
  link_parts nfkc check_bracketed_netloc (pre ++ host ++ path ++ tail) =
    Ok (path_parts path).
Proof.
  intros Hpre Hhost [Hhead Hpath] Htail.
  assert (Hsharp : ~ In (ch "#") path) by (now apply path_text_free).
  assert (Hquest : ~ In (ch "?") path) by (now apply path_text_free).
  assert (Hsemi : ~ In (ch ";") path) by (now apply path_text_free).
  assert (Hsan : sanitize path = path).
  { apply sanitize_clean. eapply Forall_impl; [|exact Hpath].
    intros c Hc. unfold path_char in Hc.
    apply andb_true_iff in Hc as [Hc _].
    apply andb_true_iff in Hc as [Hc _].
    apply andb_true_iff in Hc as [Hc _].
    now apply negb_true_iff. }
  unfold link_parts, UrlParse.urlparse.
  rewrite (urlsplit_link scheme pre host (path ++ tail) Hpre).
  - rewrite sanitize_app, Hsan. unfold after_authority.
    destruct (plain_text_no_bracket host (host_text_plain host Hhost))
      as [-> ->].
    cbn [andb orb negb bind].
    assert (Huses : existsb (str_eqb scheme) UrlParse.uses_params = true).
    { destruct Hpre as [[= <- <-]|[[= <- <-]|[]]]; reflexivity. }
    pose proof (checknetloc_plain nfkc host (host_text_plain host Hhost))
      as Hnet.
    pose proof (not_in_contains _ _ Hsemi) as Hno.
    destruct tail as [|c tail]; [|destruct Htail as [-> | ->]].
    + change (sanitize []) with (@nil N). rewrite app_nil_r.
      rewrite (cut_none _ _ Hsharp), (cut_none _ _ Hquest), Hnet.
      cbn [bind UrlParse.scheme UrlParse.path].
      now rewrite Huses, Hno.
    + rewrite sanitize_head by reflexivity.
      rewrite (cut_app_free (ch "#") path _ Hsharp).
      change (cut (ch "#") (ch "?" :: sanitize tail))
        with (match cut (ch "#") (sanitize tail) with
              | Some (a, b) => Some (ch "?" :: a, b)
              | None => None
              end).
      destruct (cut (ch "#") (sanitize tail)) as [[a b]|];
        rewrite (cut_app (ch "?") path _ Hquest), Hnet;
        cbn [bind UrlParse.scheme UrlParse.path];
        now rewrite Huses, Hno.
    + rewrite sanitize_head by reflexivity.
      rewrite (cut_app (ch "#") path _ Hsharp).
      rewrite (cut_none _ _ Hquest), Hnet.
      cbn [bind UrlParse.scheme UrlParse.path].
      now rewrite Huses, Hno.
  - eapply Forall_impl; [|exact Hhost]. now intros c (_ & H1 & H2).
  - destruct path as [|c path]; simpl.
    + destruct tail as [|c tail]; [exact I|].
      destruct Htail as [-> | ->]; reflexivity.
    + now rewrite Hhead.
Qed.


End UrlShape.

(** ** The path [urlparse] gives *)

Lemma sanitize_removed (s : str) :
  Forall (fun c => removed_char c = false) (sanitize s).
Proof.
  unfold sanitize, remove_char. simpl. apply Forall_forall. intros c Hc.
  apply filter_In in Hc as [Hc H10].
  apply filter_In in Hc as [Hc H13].
  apply filter_In in Hc as [_ H9].
  apply negb_true_iff in H9, H13, H10.
  unfold removed_char. now rewrite H9, H13, H10.
Qed.

Lemma forall_incl {P : N -> Prop} (s t : str) :
  incl s t -> Forall P t -> Forall P s.
Proof. rewrite !Forall_forall. auto. Qed.

Lemma cut_fst_incl (c : N) (s : str) :
  incl (match cut c s with Some (a, _) => a | None => s end) s
  /\ ~ In c (match cut c s with Some (a, _) => a | None => s end).
Proof.
  pose proof (cut_spec c s) as H.
  destruct (cut c s) as [[a b]|].
  - destruct H as [-> Hn]. split; [apply incl_appl, incl_refl|exact Hn].
  - split; [apply incl_refl|exact H].
Qed.

Lemma splitparams_incl (url : str) :
  incl (fst (UrlParse.splitparams url)) url.
Proof.
  unfold UrlParse.splitparams.
  pose proof (rcut_spec (ch "/") url) as Hr.
  destruct (rcut (ch "/") url) as [[dir last]|].
  - pose proof (cut_spec (ch ";") last) as Hc.
    destruct (cut (ch ";") last) as [[a b]|]; simpl; [|apply incl_refl].
    destruct Hc as [-> _]. subst url.
    intros x Hx. apply in_app_or in Hx as [Hx|[Hx|Hx]].
    + apply in_or_app. now left.
    + apply in_or_app. right. now left.
    + apply in_or_app. right. right. apply in_or_app. now left.
  - pose proof (cut_spec (ch ";") url) as Hc.
    destruct (cut (ch ";") url) as [[a b]|]; simpl.
    + destruct Hc as [-> _]. apply incl_appl, incl_refl.
    + intros x Hx. clear Hc Hr.
      induction url as [|y url IH]; [contradiction|].
      destruct url as [|z url]; [contradiction|].
      destruct Hx as [<-|Hx]; [now left|right; now apply IH].
Qed.

Section PathFacts.
Variable nfkc : str -> str.
Variable check_bracketed_netloc : str -> option exn.

(** The path of a parsed URL holds no removed character, no [#] and no
    [?]. *)
Lemma urlsplit_path_clean (url : str) (r : UrlParse.ParseResult) :
  UrlParse.urlsplit nfkc check_bracketed_netloc url = Ok r ->
  Forall (fun c => removed_char c = false) (UrlParse.path r)
  /\ ~ In (ch "#") (UrlParse.path r)
  /\ ~ In (ch "?") (UrlParse.path r).
Proof.
  unfold UrlParse.urlsplit.
  fold (sanitize (lstrip_by UrlParse.c0_control_or_space url)).
  pose proof (sanitize_removed (lstrip_by UrlParse.c0_control_or_space url))
    as H1.
  set (url1 := sanitize _) in *. clearbody url1.
  set (sch := match cut _ url1 with Some (c :: pre, rest) => _ | _ => _ end).
  assert (H2 : Forall (fun c => removed_char c = false) (snd sch)).
  { subst sch. destruct (cut (ch ":") url1) as [[[|c pre] rest]|] eqn:Hcut;
      try exact H1.
    destruct (_ && _); [|exact H1].
    pose proof (cut_spec (ch ":") url1) as Hs. rewrite Hcut in Hs.
    destruct Hs as [Heq _]. simpl.
    apply (forall_incl rest url1); [|exact H1].
    rewrite Heq. apply incl_appr, incl_tl, incl_refl. }
  destruct sch as [scheme url2]. simpl in H2.
  set (auth := if startswith url2 (u "//") then _ else _).
  assert (H3 : forall netloc url3,
             auth = Ok (netloc, url3) ->
             Forall (fun c => removed_char c = false) url3).
  { subst auth. intros netloc url3.
    destruct (startswith url2 (u "//")).
    - unfold UrlParse.splitnetloc2.
      set (p := fun c : N => _).
      destruct (span_incl p (skipn 2 url2)) as [_ Hb].
      destruct (span p (skipn 2 url2)) as [netloc' url3']. cbn [snd] in Hb.
      assert (Hq : Forall (fun c => removed_char c = false) url3').
      { apply (forall_incl url3' url2); [|exact H2].
        eapply incl_tran; [exact Hb|apply (skipn_incl 2 url2)]. }
      destruct (_ || _); [discriminate|].
      destruct (_ && _).
      + destruct (check_bracketed_netloc netloc'); [discriminate|].
        now intros [= _ <-].
      + now intros [= _ <-].
    - now intros [= _ <-]. }
  destruct auth as [[netloc url3]|e]; [|discriminate].
  specialize (H3 netloc url3 eq_refl). cbn [bind].
  destruct (cut_fst_incl (ch "#") url3) as [Hi4 Hn4].
  set (url4 := match cut (ch "#") url3 with Some (a, _) => a | None => url3 end) in *.
  destruct (cut_fst_incl (ch "?") url4) as [Hi5 Hn5].
  set (url5 := match cut (ch "?") url4 with Some (a, _) => a | None => url4 end) in *.
  assert (Hshape :
    forall res,
      (let '(url, fragment) :=
         match cut (ch "#") url3 with
         | Some (a, b) => (a, b)
         | None => (url3, [])
         end in
       let '(url, query) :=
         match cut (ch "?") url with
         | Some (a, b) => (a, b)
         | None => (url, [])
         end in
       bind (UrlParse.checknetloc nfkc netloc)
         (fun _ => Ok (UrlParse.MkParseResult scheme netloc url [] query
                                              fragment))) = Ok res ->
      UrlParse.path res = url5).
  { intros res. subst url5 url4.
    destruct (cut (ch "#") url3) as [[a4 b4]|];
      (match goal with
       | |- context [cut (ch "?") ?x] =>
           destruct (cut (ch "?") x) as [[a5 b5]|]
       end;
       destruct (UrlParse.checknetloc nfkc netloc); simpl;
       try discriminate; now intros [= <-]). }
  intros Hres. rewrite (Hshape r Hres).
  split; [|split].
  - apply (forall_incl url5 url3); [|exact H3].
    eapply incl_tran; [exact Hi5|exact Hi4].
  - intros Hin. apply Hn4. now apply Hi5.
  - exact Hn5.
Qed.

Lemma urlparse_path_clean (url : str) (r : UrlParse.ParseResult) :
  UrlParse.urlparse nfkc check_bracketed_netloc url = Ok r ->
  Forall (fun c => removed_char c = false) (UrlParse.path r)
  /\ ~ In (ch "#") (UrlParse.path r)
  /\ ~ In (ch "?") (UrlParse.path r).
Proof.
  unfold UrlParse.urlparse.
  destruct (UrlParse.urlsplit nfkc check_bracketed_netloc url) as [r0|e] eqn:Hs;
    [|discriminate].
  destruct (urlsplit_path_clean url r0 Hs) as (Hr & Hsharp & Hquest).
  cbn [bind]. destruct (_ && _); [|now intros [= <-]].
  pose proof (splitparams_incl (UrlParse.path r0)) as Hi.
  destruct (UrlParse.splitparams (UrlParse.path r0)) as [url' params'].
  cbn [fst] in Hi. intros [= <-]. cbn [UrlParse.path].
  split; [|split].
  - now apply (forall_incl url' (UrlParse.path r0)).
  - intros Hin. apply Hsharp. now apply Hi.
  - intros Hin. apply Hquest. now apply Hi.
Qed.

(** Every segment of a link is non-empty and holds no [/], [?], [#], tab,
    carriage return or line feed. *)
Lemma link_parts_clean (url : str) (parts : list str) (seg : str) :
  link_parts nfkc check_bracketed_netloc url = Ok parts ->
  In seg parts ->
  seg <> []
  /\ Forall (fun c => authority_end c = false /\ removed_char c = false) seg.
Proof.
  unfold link_parts.
  destruct (UrlParse.urlparse nfkc check_bracketed_netloc url) as [r|e] eqn:Hu;
    [|discriminate].
  cbn [bind]. intros [= <-] Hin.
  split; [now apply (path_parts_nonempty (UrlParse.path r))|].
  destruct (urlparse_path_clean url r Hu) as (Hr & Hsharp & Hquest).
  unfold path_parts in Hin. apply filter_In in Hin as [Hin _].
  pose proof (split_pieces (ch "/") (UrlParse.path r)) as Hp.
  rewrite Forall_forall in Hp. destruct (Hp seg Hin) as [Hslash Hi].
  apply Forall_forall. intros c Hc. split.
  - unfold authority_end. apply orb_false_iff. split;
      [apply orb_false_iff; split|]; apply N.eqb_neq; intros ->.
    + now apply Hslash.
    + apply Hquest. now apply Hi.
    + apply Hsharp. now apply Hi.
  - rewrite Forall_forall in Hr. apply Hr. now apply Hi.
Qed.

End PathFacts.

(** ** The resolver on links, by their shape *)

Lemma is_link_prefix (scheme pre x : str) :
  In (scheme, pre) link_schemes -> is_link (pre ++ x) = true.
Proof.
  unfold is_link, startswith_any.
  intros [[= <- <-]|[[= <- <-]|[]]]; cbn [existsb].
  - now rewrite (startswith_app (u "http://")).
  - rewrite (startswith_app (u "https://")). apply orb_true_r.
Qed.

Lemma startswith_incl (prefix : str) :
  forall s, startswith s prefix = true -> incl prefix s.
Proof.
  induction prefix as [|a prefix IH]; intros s H; [apply incl_nil_l|].
  destruct s as [|b s]; [discriminate|]. simpl in H.
  apply andb_true_iff in H as [Hab H]. apply N.eqb_eq in Hab. subst b.
  intros x [<-|Hx]; [now left|right; now apply (IH s H)].
Qed.

Lemma is_link_has_slash (s : str) : is_link s = true -> In (ch "/") s.
Proof.
  unfold is_link, startswith_any. cbn [existsb].
  rewrite orb_false_r, orb_true_iff.
  intros [H|H]; apply (startswith_incl _ _ H); cbv; auto 10.
Qed.

Lemma digit_path_char (c : N) :
  is_digit c = true -> path_char c = true /\ c <> ch "/".
Proof.
  intros Hc. apply is_digit_range in Hc.
  assert (Hk : forall k : N, c <> k -> (c =? k)%N = false)
    by (intros k Hk; now apply N.eqb_neq).
  unfold path_char, removed_char.
  change (ch "?") with 63%N. change (ch "#") with 35%N.
  change (ch ";") with 59%N. change (ch "/") with 47%N.
  split; [|lia].
  rewrite !Hk by lia. reflexivity.
Qed.

Lemma str_eqb_nil_cons (c : N) (s : str) : str_eqb (c :: s) [] = false.
Proof. unfold str_eqb. now destruct (list_eq_dec N.eq_dec (c :: s) []). Qed.

Lemma path_parts_two (slug ds : str) :
  slug <> [] -> ds <> [] -> ~ In (ch "/") slug -> ~ In (ch "/") ds ->
  path_parts (ch "/" :: slug ++ ch "/" :: ds) = [slug; ds].
Proof.
  intros Hs Hd Hns Hnd. unfold path_parts.
  change (ch "/" :: slug ++ ch "/" :: ds) with ([] ++ ch "/" :: slug ++ ch "/" :: ds).
  rewrite split_app by (intros []).
  rewrite split_app by exact Hns.
  rewrite split_free by exact Hnd.
  destruct slug as [|c slug]; [contradiction|].
  destruct ds as [|d ds]; [contradiction|].
  cbn [filter]. rewrite !str_eqb_nil_cons. reflexivity.
Qed.

Section ResolverMore.
Variable todecimal : N -> option N.
Variable nfkc : str -> str.
Variable check_bracketed_netloc : str -> option exn.
Variable repr : str -> str.

Local Abbreviation parse :=
  (parse_chat_identifier todecimal nfkc check_bracketed_netloc).
Local Abbreviation parts_of := (link_parts nfkc check_bracketed_netloc).
Local Abbreviation run_of :=
  (run todecimal nfkc check_bracketed_netloc repr).

(** X13: only the path of a link counts.  For a reference that trims to
    [http://] or [https://], then an authority of ASCII characters with no
    square bracket, no [/], [?], [#], tab, carriage return or line feed,
    then a path that is empty or starts with [/] and holds no [;], [?],
    [#], tab, carriage return or line feed, then nothing or a query or
    fragment opened by [?] or [#], the resolver's answer is read off the
    path's non-empty segments alone: the trimmed link itself when there
    is none, else the first segment, with the topic id passed in or, when
    none was passed in and there is a second segment, what [int] reads from
    it.  Authority, query and fragment play no part. *)
Theorem link_resolves_by_path
        (raw scheme pre host path tail : str) (topic : option Z) :
  strip raw = pre ++ host ++ path ++ tail ->
  In (scheme, pre) link_schemes ->
  host_text host -> path_text path -> tail_text tail ->
  parse raw topic =
    match path_parts path with
    | [] => Ok (strip raw, topic)
    | part0 :: rest =>
        match rest, topic with
        | part1 :: _, None => Ok (part0, int_of_str todecimal part1)
        | _, _ => Ok (part0, topic)
        end
    end.
Proof.
  intros Hraw Hpre Hhost Hpath Htail.
  apply parse_link.
  - rewrite Hraw. now apply (is_link_prefix scheme).
  - rewrite Hraw. now apply (link_parts_well_formed nfkc check_bracketed_netloc scheme).
Qed.

(** X14: a message or topic link.  White space, then [http://] or
    [https://], an authority of ASCII characters with no square bracket, no
    [/], [?], [#], tab, carriage return or line feed, then [/], a non-empty
    segment with no [/], [;], [?], [#], tab, carriage return or line feed,
    then [/], one to 4300 ASCII digits, then white space: the identifier
    is the segment, and the topic id is the one passed in or, when none
    was, the decimal value of the digits. *)
Theorem link_with_number
        (scheme pre host slug ds before after : str) (topic : option Z) :
  In (scheme, pre) link_schemes ->
  host_text host -> segment_text slug -> digit_text ds ->
  Forall (fun c => isspace c = true) before ->
  Forall (fun c => isspace c = true) after ->
  parse (before ++ (pre ++ host ++ ch "/" :: slug ++ ch "/" :: ds) ++ after)
        topic =
    Ok (slug, match topic with
              | Some t => Some t
              | None => Some (decimal_value ds)
              end).
Proof.
  intros Hpre Hhost [Hsne Hslug] Hdt Hb Ha.
  pose proof Hdt as (Hdne & Hdig & Hlen).
  assert (Hdpath : Forall (fun c => path_char c = true /\ c <> ch "/") ds).
  { eapply Forall_impl; [|exact Hdig]. intros c Hc.
    now apply digit_path_char. }
  assert (Hstrip :
    strip (before ++ (pre ++ host ++ ch "/" :: slug ++ ch "/" :: ds) ++ after)
    = pre ++ host ++ (ch "/" :: slug ++ ch "/" :: ds) ++ []).
  { rewrite app_nil_r.
    destruct (exists_last Hdne) as (ds' & d & ->).
    assert (Hd : isspace d = false).
    { apply Forall_app in Hdig as [_ Hd]. inversion Hd as [|? ? Hd' _]; subst.
      apply is_digit_range in Hd'. unfold isspace.
      repeat (apply orb_false_iff; split);
        try (apply andb_false_iff; left; apply N.leb_gt; lia);
        try (apply andb_false_iff; right; apply N.leb_gt; lia);
        apply N.eqb_neq; lia. }
    destruct Hpre as [[= <- <-]|[[= <- <-]|[]]].
    - change (u "http://" ++ host ++ ch "/" :: slug ++ ch "/" :: ds' ++ [d])
        with (104%N :: u "ttp://" ++ host ++ ch "/" :: slug ++ ch "/" :: ds' ++ [d]).
      replace (104%N :: u "ttp://" ++ host ++ ch "/" :: slug ++ ch "/" :: ds' ++ [d])
        with (104%N :: (u "ttp://" ++ host ++ ch "/" :: slug ++ ch "/" :: ds') ++ [d])
        by (rewrite <- !app_assoc; simpl; now rewrite <- !app_assoc).
      now apply strip_padded.
    - change (u "https://" ++ host ++ ch "/" :: slug ++ ch "/" :: ds' ++ [d])
        with (104%N :: u "ttps://" ++ host ++ ch "/" :: slug ++ ch "/" :: ds' ++ [d]).
      replace (104%N :: u "ttps://" ++ host ++ ch "/" :: slug ++ ch "/" :: ds' ++ [d])
        with (104%N :: (u "ttps://" ++ host ++ ch "/" :: slug ++ ch "/" :: ds') ++ [d])
        by (rewrite <- !app_assoc; simpl; now rewrite <- !app_assoc).
      now apply strip_padded. }
  assert (Hpath : path_text (ch "/" :: slug ++ ch "/" :: ds)).
  { split; [reflexivity|].
    constructor; [reflexivity|]. apply Forall_app. split.
    - eapply Forall_impl; [|exact Hslug]. now intros c [].
    - constructor; [reflexivity|].
      eapply Forall_impl; [|exact Hdpath]. now intros c []. }
  assert (Hparts : path_parts (ch "/" :: slug ++ ch "/" :: ds) = [slug; ds]).
  { apply path_parts_two; auto.
    - rewrite Forall_forall in Hslug. intros Hin.
      now destruct (Hslug _ Hin) as [_ Hne].
    - rewrite Forall_forall in Hdpath. intros Hin.
      now destruct (Hdpath _ Hin) as [_ Hne]. }
  rewrite (parse_link todecimal nfkc check_bracketed_netloc _ topic [slug; ds]).
  - destruct topic; [reflexivity|].
    now rewrite (int_of_digits todecimal ds Hdt).
  - rewrite Hstrip. now apply (is_link_prefix scheme).
  - rewrite Hstrip, <- Hparts.
    now apply (link_parts_well_formed nfkc check_bracketed_netloc scheme).
Qed.


(** X16: an identifier taken from a link is a non-empty path segment: it
    holds no [/], [?] or [#] and no tab, carriage return or line feed.  The
    only other identifier a link gives is the trimmed link itself, when
    its path has no segment. *)
Theorem link_identifier_is_segment
        (raw : str) (topic : option Z) (identifier : str) (tid : option Z) :
  is_link (strip raw) = true ->
  parse raw topic = Ok (identifier, tid) ->
  (identifier = strip raw /\ tid = topic /\ parts_of (strip raw) = Ok [])
  \/ (identifier <> []
      /\ Forall (fun c => authority_end c = false /\ removed_char c = false)
                identifier).
Proof.
  intros Hl Hp.
  destruct (parts_of (strip raw)) as [parts|e] eqn:Hparts.
  - rewrite (parse_link todecimal nfkc check_bracketed_netloc raw topic parts
               Hl Hparts) in Hp.
    destruct parts as [|part0 rest].
    + injection Hp as <- <-. now left.
    + right.
      assert (Hid : identifier = part0).
      { destruct rest as [|part1 rest]; [now injection Hp as <- _|].
        destruct topic; now injection Hp as <- _. }
      subst identifier.
      apply (link_parts_clean nfkc check_bracketed_netloc (strip raw)
               (part0 :: rest) part0 Hparts). now left.
  - rewrite (parse_link_raises todecimal nfkc check_bracketed_netloc raw topic
               e Hl Hparts) in Hp. discriminate.
Qed.

(** X17: resolving what the resolver returned.  Given back its own
    identifier and topic id, the resolver returns the identifier trimmed
    and the same topic id; it never resolves its own output as a link with
    segments, and never raises on it. *)
Theorem parse_again
        (raw : str) (topic : option Z) (identifier : str) (tid : option Z) :
  parse raw topic = Ok (identifier, tid) ->
  parse identifier tid = Ok (strip identifier, tid).
Proof.
  intros Hp.
  destruct (is_link (strip raw)) eqn:Hl.
  - destruct (parts_of (strip raw)) as [parts|e] eqn:Hparts.
    + rewrite (parse_link todecimal nfkc check_bracketed_netloc raw topic
                 parts Hl Hparts) in Hp.
      destruct parts as [|part0 rest].
      * injection Hp as <- <-.
        assert (Hl' : is_link (strip (strip raw)) = true)
          by now rewrite strip_idem.
        rewrite (parse_link todecimal nfkc check_bracketed_netloc
                   (strip raw) topic [] Hl');
          [reflexivity|now rewrite strip_idem].
      * assert (Hid : identifier = part0).
        { destruct rest as [|part1 rest]; [now injection Hp as <- _|].
          destruct topic; now injection Hp as <- _. }
        subst identifier.
        apply parse_not_link.
        destruct (is_link (strip part0)) eqn:Hl0; [|reflexivity].
        apply is_link_has_slash in Hl0. apply strip_incl in Hl0.
        destruct (link_parts_clean nfkc check_bracketed_netloc (strip raw)
                    (part0 :: rest) part0 Hparts (or_introl eq_refl))
          as [_ Hclean].
        rewrite Forall_forall in Hclean.
        destruct (Hclean _ Hl0) as [Hend _]. discriminate Hend.
    + rewrite (parse_link_raises todecimal nfkc check_bracketed_netloc raw
                 topic e Hl Hparts) in Hp. discriminate.
  - rewrite (parse_not_link todecimal nfkc check_bracketed_netloc raw topic Hl)
      in Hp.
    injection Hp as <- <-.
    apply parse_not_link. now rewrite strip_idem.
Qed.

(** X18: a blank chat reference is not refused.  When the reference is
    empty or all white space, the resolver returns the empty identifier,
    and the run starts the client and asks the collaborator to resolve the
    empty identifier. *)
Theorem blank_reference_is_resolved (w : World) (args : Args) :
  Forall (fun c => isspace c = true) (chat args) ->
  parse (chat args) (topic_id args) = Ok ([], topic_id args)
  /\ exists rest,
       fst (run_of w args) = start_event args :: GetEntity [] :: rest.
Proof.
  intros Hblank.
  assert (Hp : parse (chat args) (topic_id args) = Ok ([], topic_id args)).
  { rewrite (parse_not_link todecimal nfkc check_bracketed_netloc
               (chat args) (topic_id args));
      now rewrite (strip_all_space (chat args) Hblank). }
  split; [exact Hp|].
  rewrite (run_until_resolution todecimal nfkc check_bracketed_netloc repr
             w args [] (topic_id args) Hp).
  destruct (get_entity w []) as [e|gerr].
  - destruct (timedelta_days (days args)) as [delta|terr]; [|simpl; eauto].
    destruct (datetime_sub (now_utc w) delta); simpl; eauto.
  - destruct (caught (exn_class gerr)); simpl; eauto.
Qed.

End ResolverMore.

(** ** Empty segments, and the optional fields of a record *)

Lemma split_double (c : N) (b : str) :
  forall a,
    exists h t1 t2,
      split c (a ++ c :: c :: b) = h :: t1
      /\ split c (a ++ c :: b) = h :: t2
      /\ filter (fun p => negb (str_eqb p [])) t1
         = filter (fun p => negb (str_eqb p [])) t2.
Proof.
  induction a as [|x a IH]; simpl.
  - rewrite N.eqb_refl. exists [], ([] :: split c b), (split c b).
    repeat split.
  - destruct IH as (h & t1 & t2 & H1 & H2 & Hf).
    destruct (x =? c)%N.
    + exists [], (split c (a ++ c :: c :: b)), (split c (a ++ c :: b)).
      repeat split. rewrite H1, H2. simpl. now rewrite Hf.
    + rewrite H1, H2. now exists (x :: h), t1, t2.
Qed.

Lemma split_trailing (c : N) :
  forall a,
    exists h t,
      split c (a ++ [c]) = h :: t ++ [[]] /\ split c a = h :: t.
Proof.
  induction a as [|x a IH]; simpl.
  - rewrite N.eqb_refl. now exists [], [].
  - destruct IH as (h & t & H1 & H2).
    destruct (x =? c)%N.
    + exists [], (h :: t). rewrite H1, H2. now split.
    + rewrite H1, H2. now exists (x :: h), t.
Qed.

(** X19: empty path segments do not count: a doubled slash gives the same
    segments as a single one, and a trailing slash gives the same segments
    as none. *)
Theorem path_parts_slashes (a b : str) :
  path_parts (a ++ ch "/" :: ch "/" :: b) = path_parts (a ++ ch "/" :: b)
  /\ path_parts (a ++ [ch "/"]) = path_parts a.
Proof.
  unfold path_parts. split.
  - destruct (split_double (ch "/") b a) as (h & t1 & t2 & -> & -> & Hf).
    simpl. now rewrite Hf.
  - destruct (split_trailing (ch "/") a) as (h & t & -> & ->).
    change (h :: t ++ [[]]) with ((h :: t) ++ [[]]).
    rewrite filter_app. simpl filter at 2. apply app_nil_r.
Qed.

(** ** The further properties at sample inputs *)

Lemma collect_stops_at_first_old_witness :
  collect (u "durov") 150
          ([IsMessage (Sample.msg 3 300)] ++ IsMessage (Sample.msg 2 100)
             :: [IsMessage (Sample.msg 1 400)]) [] =
    (projection (u "durov") (dated [IsMessage (Sample.msg 3 300)]),
     [IsMessage (Sample.msg 1 400)]).
Proof.
  apply (collect_stops_at_first_old (u "durov") 150
           [IsMessage (Sample.msg 3 300)] (Sample.msg 2 100) 100
           [IsMessage (Sample.msg 1 400)]).
  - reflexivity.
  - lia.
  - simpl. repeat constructor.
Defined.

Lemma collect_exhausts_witness :
  collect (u "durov") 150
          [IsMessage (Sample.msg 3 300); NotMessage; IsMessage (Sample.msg 2 200)] [] =
    (projection (u "durov")
       (dated [IsMessage (Sample.msg 3 300); NotMessage; IsMessage (Sample.msg 2 200)]),
     [])
  /\ List.length
       (fst (collect (u "durov") 150
               [IsMessage (Sample.msg 3 300); NotMessage;
                IsMessage (Sample.msg 2 200)] [])) =
     List.length
       (dated [IsMessage (Sample.msg 3 300); NotMessage;
               IsMessage (Sample.msg 2 200)]).
Proof.
  apply (collect_exhausts (u "durov") 150
           [IsMessage (Sample.msg 3 300); NotMessage; IsMessage (Sample.msg 2 200)]).
  simpl. repeat constructor.
Defined.

Lemma collect_widens_witness :
  exists more,
    fst (collect (u "durov") 150 Sample.history [])
    = fst (collect (u "durov") 250 Sample.history []) ++ more.
Proof.
  apply (collect_widens (u "durov") 250 150 Sample.history). lia.
Defined.

Lemma run_goes_through_witness :
  Sample.run (Sample.world Sample.found) (Sample.args "durov") =
    ([Start None; GetEntity (u "durov"); IterMessages (Peer 1) false None;
      Disconnect;
      JsonDump (fst (collect (u "durov")
                             (Sample.now - 30 * 86400000000)
                             (rev Sample.history) []))],
     Ok tt).
Proof.
  apply (run_goes_through Sample.todecimal Sample.nfkc
           Sample.check_bracketed_netloc Sample.repr
           (Sample.world Sample.found) (Sample.args "durov")
           (u "durov") None (Peer 1)).
  - reflexivity.
  - reflexivity.
  - simpl. lia.
  - unfold datetime_min, datetime_max. simpl. lia.
Defined.


Lemma day_count_out_of_range_witness :
  exists err,
    exn_class err = OverflowError
    /\ Sample.run (Sample.world Sample.found)
                  (MkArgs 1 (u "hash") (u "durov") 1000000000
                          (u "telethon_session") None None)
       = ([Start None; GetEntity (u "durov")], Raise err).
Proof.
  apply (day_count_out_of_range Sample.todecimal Sample.nfkc
           Sample.check_bracketed_netloc Sample.repr
           (Sample.world Sample.found)
           (MkArgs 1 (u "hash") (u "durov") 1000000000
                   (u "telethon_session") None None)
           (u "durov") None (Peer 1)).
  - reflexivity.
  - reflexivity.
  - left. simpl. lia.
Defined.

Lemma rejected_reference_calls_nothing_witness :
  Sample.run (Sample.world Sample.found) (Sample.args "http://[")
  = ([], Raise UrlParse.invalid_ipv6_url)
  /\ is_link (strip (u "http://[")) = true
  /\ UrlParse.urlparse Sample.nfkc Sample.check_bracketed_netloc
                       (strip (u "http://["))
     = Raise UrlParse.invalid_ipv6_url.
Proof.
  apply (rejected_reference_calls_nothing Sample.todecimal Sample.nfkc
           Sample.check_bracketed_netloc Sample.repr
           (Sample.world Sample.found) (Sample.args "http://[")
           UrlParse.invalid_ipv6_url).
  reflexivity.
Defined.

Lemma start_argument_witness :
  (@None str = None \/ @None str = Some [] ->
   hd_error (fst (Sample.run (Sample.world Sample.found) (Sample.args "durov")))
   = Some (Start None))
  /\ (forall p, @None str = Some p -> p <> [] ->
      hd_error (fst (Sample.run (Sample.world Sample.found) (Sample.args "durov")))
      = Some (Start (Some p))).
Proof.
  apply (start_argument Sample.todecimal Sample.nfkc
           Sample.check_bracketed_netloc Sample.repr
           (Sample.world Sample.found) (Sample.args "durov")
           (u "durov", None)).
  reflexivity.
Defined.

Lemma request_scope_witness :
  (exists chat_identifier,
     Sample.parse (u "https://t.me/durov/42") (Some 7%Z)
     = Ok (chat_identifier, Some 7%Z)
     /\ Sample.found chat_identifier = Ok (Peer 1))
  /\ (forall t, Some 7%Z = Some t -> Some 7%Z = Some t)
  /\ (Some 7%Z = None ->
      is_link (strip (u "https://t.me/durov/42")) = false ->
      Some 7%Z = None).
Proof.
  apply (request_scope Sample.todecimal Sample.nfkc
           Sample.check_bracketed_netloc Sample.repr
           (Sample.world Sample.found)
           (MkArgs 1 (u "hash") (u "https://t.me/durov/42") 30
                   (u "telethon_session") (Some 7%Z) None)
           (Peer 1) false (Some 7%Z)).
  simpl. auto.
Defined.

Lemma run_prints_window_witness :
  Sample.run (Sample.world Sample.found) (Sample.args "durov") =
    ([Start None; GetEntity (u "durov"); IterMessages (Peer 1) false None;
      Disconnect;
      JsonDump
        (projection (u "durov")
           (rev (filter (in_window (Sample.now - 30 * 86400000000))
                        (dated Sample.history))))],
     Ok tt).
Proof.
  apply (run_prints_window Sample.todecimal Sample.nfkc
           Sample.check_bracketed_netloc Sample.repr
           Sample.found (fun _ _ => true) Sample.history Sample.now
           (Sample.args "durov") (u "durov") None (Peer 1)).
  - reflexivity.
  - reflexivity.
  - simpl. lia.
  - unfold datetime_min, datetime_max. simpl. lia.
  - simpl. unfold Sample.now, Sample.day. lia.
Defined.

Lemma link_resolves_by_path_witness :
  Sample.parse (u " https://t.me:443/durov/42/?single#top") None =
    match path_parts (u "/durov/42/") with
    | [] => Ok (strip (u " https://t.me:443/durov/42/?single#top"), None)
    | part0 :: rest =>
        match rest, @None Z with
        | part1 :: _, None => Ok (part0, int_of_str Sample.todecimal part1)
        | _, _ => Ok (part0, None)
        end
    end.
Proof.
  apply (link_resolves_by_path Sample.todecimal Sample.nfkc
           Sample.check_bracketed_netloc
           (u " https://t.me:443/durov/42/?single#top")
           (u "https") (u "https://") (u "t.me:443") (u "/durov/42/")
           (u "?single#top") None).
  - reflexivity.
  - right. left. reflexivity.
  - repeat constructor.
  - split; [reflexivity|repeat constructor].
  - left. reflexivity.
Defined.

Lemma link_with_number_witness :
  Sample.parse
    (u "  " ++ (u "https://" ++ u "t.me" ++ ch "/" :: u "durov" ++ ch "/" :: u "42")
       ++ [10%N]) None
  = Ok (u "durov", Some (decimal_value (u "42"))).
Proof.
  apply (link_with_number Sample.todecimal Sample.nfkc
           Sample.check_bracketed_netloc
           (u "https") (u "https://") (u "t.me") (u "durov") (u "42")
           (u "  ") [10%N] None).
  - right. left. reflexivity.
  - repeat constructor.
  - split; [discriminate|repeat constructor; discriminate].
  - split; [discriminate|]. split; [repeat constructor|].
    unfold max_str_digits. simpl. lia.
  - repeat constructor.
  - repeat constructor.
Defined.


Lemma link_identifier_is_segment_witness :
  (u "durov" = strip (u "https://t.me/durov/42?single")
   /\ Some 42%Z = None
   /\ link_parts Sample.nfkc Sample.check_bracketed_netloc
                 (strip (u "https://t.me/durov/42?single")) = Ok [])
  \/ (u "durov" <> []
      /\ Forall (fun c => authority_end c = false /\ removed_char c = false)
                (u "durov")).
Proof.
  apply (link_identifier_is_segment Sample.todecimal Sample.nfkc
           Sample.check_bracketed_netloc
           (u "https://t.me/durov/42?single") None (u "durov") (Some 42%Z)).
  - reflexivity.
  - reflexivity.
Defined.

Lemma parse_again_witness :
  Sample.parse (u " ") None = Ok (strip (u " "), None).
Proof.
  apply (parse_again Sample.todecimal Sample.nfkc
           Sample.check_bracketed_netloc
           (u "https://t.me/ /x") None (u " ") None).
  reflexivity.
Defined.

Lemma blank_reference_is_resolved_witness :
  Sample.parse (u " ") None = Ok ([], None)
  /\ exists rest,
       fst (Sample.run (Sample.world Sample.found) (Sample.args " "))
       = Start None :: GetEntity [] :: rest.
Proof.
  apply (blank_reference_is_resolved Sample.todecimal Sample.nfkc
           Sample.check_bracketed_netloc Sample.repr
           (Sample.world Sample.found) (Sample.args " ")).
  repeat constructor.
Defined.

(** ** What [strip] leaves, and what [int] rejects *)

(** [rstrip] takes a run of matching characters off the end, and stops at
    the last character that does not match. *)
Lemma rstrip_by_spec (p : N -> bool) (s : str) :
  exists trailing,
    s = rstrip_by p s ++ trailing
    /\ Forall (fun c => p c = true) trailing
    /\ match rev (rstrip_by p s) with
       | c :: _ => p c = false
       | [] => True
       end.
Proof.
  induction s as [|c s (t & Hs & Ht & Hlast)]; simpl.
  - exists []. repeat split. constructor.
  - destruct (rstrip_by p s) as [|r rs] eqn:E.
    + simpl in Hs. subst t.
      destruct (p c) eqn:Hc.
      * exists (c :: s). repeat split. now constructor.
      * exists s. repeat split; [exact Ht|]. simpl. exact Hc.
    + exists t. split; [now rewrite Hs at 1|]. split; [exact Ht|].
      simpl in *. destruct (rev rs ++ [r]) eqn:E'; [|exact Hlast].
      now destruct (rev rs).
Qed.

Lemma lstrip_by_keeps (p : N -> bool) (b : N) (s : str) :
  In b s -> p b = false -> In b (lstrip_by p s).
Proof.
  intros Hin Hb. induction s as [|c s IH]; [contradiction|]. simpl.
  destruct (p c) eqn:Hc; [|exact Hin].
  destruct Hin as [->|Hin]; [congruence|now apply IH].
Qed.

Lemma rstrip_by_keeps (p : N -> bool) (b : N) (s : str) :
  In b s -> p b = false -> In b (rstrip_by p s).
Proof.
  intros Hin Hb. induction s as [|c s IH]; [contradiction|]. simpl.
  destruct Hin as [->|Hin].
  - destruct (rstrip_by p s); [rewrite Hb|]; now left.
  - specialize (IH Hin). destruct (rstrip_by p s); [contradiction|now right].
Qed.

Lemma digits_reject (b : N) (s : str) :
  In b s -> is_digit b = false -> b <> ch "_" ->
  forall prev acc n, digits s prev acc n = None.
Proof.
  intros Hin Hd Hu. induction s as [|c s IH]; [contradiction|].
  intros prev acc n. cbn [digits].
  destruct Hin as [->|Hin].
  - rewrite Hd. apply N.eqb_neq in Hu. now rewrite Hu.
  - destruct (is_digit c); [now apply IH|].
    destruct ((c =? ch "_")%N && prev); [now apply IH|reflexivity].
Qed.

Section IntMore.
Variable todecimal : N -> option N.

Lemma transform_keeps_reject (c : N) (s : str) :
  In c s -> never_in_int c = true ->
  exists b, In b (transform_decimal_and_space todecimal s)
            /\ never_in_int b = true.
Proof.
  intros Hin Hc.
  assert (Hlt : (c <? 127)%N = true).
  { unfold never_in_int in Hc.
    now repeat (apply andb_true_iff in Hc as [Hc _]). }
  induction s as [|x s IH]; [contradiction|]. simpl.
  destruct (x <? 127)%N eqn:Hx.
  - destruct Hin as [->|Hin]; [exists c; split; [now left|exact Hc]|].
    destruct (IH Hin) as (b & Hb & Hnb). exists b. split; [now right|exact Hnb].
  - assert (Hin' : In c s) by (destruct Hin as [->|Hin]; [congruence|exact Hin]).
    destruct (IH Hin') as (b & Hb & Hnb).
    destruct (isspace x); [exists b; split; [now right|exact Hnb]|].
    destruct (todecimal x); [exists b; split; [now right|exact Hnb]|].
    exists (ch "?"). split; [now left|reflexivity].
Qed.

(** A text that holds a character no integer literal holds is not an
    integer for [int]. *)
Lemma int_of_str_reject (c : N) (s : str) :
  In c s -> never_in_int c = true -> int_of_str todecimal s = None.
Proof.
  intros Hin Hc.
  destruct (transform_keeps_reject c s Hin Hc) as (b & Hb & Hnb).
  unfold never_in_int in Hnb.
  apply andb_true_iff in Hnb as [Hnb Hund].
  apply andb_true_iff in Hnb as [Hnb Hminus].
  apply andb_true_iff in Hnb as [Hnb Hplus].
  apply andb_true_iff in Hnb as [Hnb Hspace].
  apply andb_true_iff in Hnb as [_ Hdigit].
  apply negb_true_iff in Hund, Hminus, Hplus, Hspace, Hdigit.
  unfold int_of_str.
  pose proof (rstrip_by_keeps c_isspace b _
                (lstrip_by_keeps c_isspace b _ Hb Hspace) Hspace) as Hin'.
  set (a := rstrip_by c_isspace
              (lstrip_by c_isspace (transform_decimal_and_space todecimal s)))
    in *.
  assert (Hd : forall body, In b body -> digits body false 0%Z 0 = None).
  { intros body Hb'. apply (digits_reject b body Hb' Hdigit).
    intros ->. now rewrite N.eqb_refl in Hund. }
  destruct a as [|x a]; [contradiction|].
  destruct (x =? ch "-")%N eqn:Em.
  - apply N.eqb_eq in Em. subst x.
    destruct Hin' as [<-|Hin']; [now rewrite N.eqb_refl in Hminus|].
    now rewrite (Hd a Hin').
  - destruct (x =? ch "+")%N eqn:Ep.
    + apply N.eqb_eq in Ep. subst x.
      destruct Hin' as [<-|Hin']; [now rewrite N.eqb_refl in Hplus|].
      now rewrite (Hd a Hin').
    + now rewrite (Hd (x :: a) Hin').
Qed.

(** A minus sign before one to 4300 ASCII digits reads as the negated
    decimal value. *)
Lemma int_of_negative (ds : str) :
  digit_text ds ->
  int_of_str todecimal (ch "-" :: ds) = Some (- decimal_value ds)%Z.
Proof.
  intros (Hne & Hd & Hlen). unfold int_of_str.
  change (transform_decimal_and_space todecimal (ch "-" :: ds))
    with (ch "-" :: transform_decimal_and_space todecimal ds).
  rewrite (transform_digits todecimal ds Hd).
  assert (Hns : Forall (fun c => c_isspace c = false) (ch "-" :: ds)).
  { constructor; [reflexivity|].
    eapply Forall_impl; [|exact Hd]. intros c Hc.
    apply is_digit_range in Hc. unfold c_isspace.
    apply orb_false_iff. split.
    - apply andb_false_iff. right. apply N.leb_gt. lia.
    - apply N.eqb_neq. lia. }
  rewrite lstrip_by_keep by reflexivity.
  rewrite rstrip_by_none by exact Hns.
  rewrite N.eqb_refl.
  rewrite (digits_all ds Hd false 0%Z 0%nat) by now left.
  apply Nat.leb_le in Hlen. rewrite Nat.add_0_l, Hlen. reflexivity.
Qed.

End IntMore.

(** ** Links with a topic segment, and links with no segment *)

Section LinkFacts.
Variable todecimal : N -> option N.
Variable nfkc : str -> str.
Variable check_bracketed_netloc : str -> option exn.

Local Abbreviation parse :=
  (parse_chat_identifier todecimal nfkc check_bracketed_netloc).
Local Abbreviation parts_of := (link_parts nfkc check_bracketed_netloc).

(** C2, amended: for an input that begins with [http://] or [https://],
    that [urlparse] splits, and whose path has at least two non-empty
    segments, with no topic id supplied, the resolver returns the first
    segment for identifier and what [int] makes of the second for topic
    id: the decimal value of a run of one to 4300 ASCII digits, negated
    after a minus sign, and an absent topic id, not an error, when the
    segment holds a character no integer literal holds. *)
Theorem link_with_topic_segment
        (raw part0 part1 : str) (rest : list str) :
  is_link raw = true ->
  parts_of (strip raw) = Ok (part0 :: part1 :: rest) ->
  parse raw None = Ok (part0, int_of_str todecimal part1)
  /\ (digit_text part1 ->
      parse raw None = Ok (part0, Some (decimal_value part1)))
  /\ (forall ds, part1 = ch "-" :: ds -> digit_text ds ->
      parse raw None = Ok (part0, Some (- decimal_value ds)%Z))
  /\ (forall c, In c part1 -> never_in_int c = true ->
      parse raw None = Ok (part0, None)).
Proof.
  intros Hl Hp. apply is_link_strip in Hl.
  rewrite (parse_link todecimal nfkc check_bracketed_netloc raw None _ Hl Hp).
  split; [reflexivity|]. split; [|split].
  - intros Hd. now rewrite (int_of_digits todecimal part1 Hd).
  - intros ds -> Hd. now rewrite (int_of_negative todecimal ds Hd).
  - intros c Hin Hc. now rewrite (int_of_str_reject todecimal c part1 Hin Hc).
Qed.

(** C10, amended: for an input that begins with [http://] or [https://],
    that [urlparse] splits, and whose path has no non-empty segment, the
    resolver returns the topic id as passed in and, for identifier, the
    whole link with its scheme and without the white space after it: the
    input is the identifier followed by white space only, and the
    identifier does not end in white space. *)
Theorem link_without_segments (raw : str) (topic : option Z) :
  is_link raw = true ->
  parts_of (strip raw) = Ok [] ->
  exists identifier trailing,
    parse raw topic = Ok (identifier, topic)
    /\ raw = identifier ++ trailing
    /\ Forall (fun c => isspace c = true) trailing
    /\ is_link identifier = true
    /\ match rev identifier with
       | c :: _ => isspace c = false
       | [] => True
       end.
Proof.
  intros Hl Hp.
  pose proof (is_link_strip raw Hl) as Hls.
  assert (Hleft : lstrip_by isspace raw = raw).
  { destruct raw as [|c raw]; [reflexivity|].
    apply lstrip_by_keep.
    unfold is_link, startswith_any in Hl. cbn [existsb] in Hl.
    rewrite orb_false_r in Hl.
    apply orb_true_iff in Hl as [Hl|Hl];
      [change (u "http://") with (104%N :: u "ttp://") in Hl
      |change (u "https://") with (104%N :: u "ttps://") in Hl];
      cbn [startswith] in Hl; apply andb_true_iff in Hl as [Hl _];
      apply N.eqb_eq in Hl; now subst c. }
  destruct (rstrip_by_spec isspace raw) as (trailing & Hraw & Ht & Hlast).
  assert (Hstrip : strip raw = rstrip_by isspace raw)
    by (unfold strip; now rewrite Hleft).
  exists (strip raw), trailing.
  split; [exact (parse_link todecimal nfkc check_bracketed_netloc
                   raw topic [] Hls Hp)|].
  split; [rewrite Hstrip; exact Hraw|].
  split; [exact Ht|]. split; [exact Hls|].
  rewrite Hstrip. exact Hlast.
Qed.

End LinkFacts.

Lemma link_with_topic_segment_witness :
  is_link (u "https://t.me/durov/42") = true
  /\ Sample.parse (u "https://t.me/durov/42") None
     = Ok (u "durov", Some 42%Z)
  /\ Sample.parse (u "https://t.me/durov/42") None
     = Ok (u "durov", int_of_str Sample.todecimal (u "42")).
Proof.
  split; [reflexivity|].
  destruct (link_with_topic_segment Sample.todecimal Sample.nfkc
              Sample.check_bracketed_netloc
              (u "https://t.me/durov/42") (u "durov") (u "42") []
              eq_refl eq_refl) as (Hint & Hdigits & _).
  split; [|exact Hint].
  apply Hdigits.
  split; [discriminate|]. split; [repeat constructor|].
  unfold max_str_digits. simpl. lia.
Defined.

(** C2 as stated: a link that begins with a scheme and has two non-empty
    path segments, but an unmatched bracket in the authority, gives no
    identifier and no topic id; the call raises [ValueError]. *)
Lemma link_with_topic_segment_counterexample :
  is_link (u "https://t.me]/durov/42") = true
  /\ u "https://t.me]/durov/42" = u "https://" ++ u "t.me]" ++ u "/durov/42"
  /\ path_parts (u "/durov/42") = [u "durov"; u "42"]
  /\ Sample.parse (u "https://t.me]/durov/42") None
     = Raise UrlParse.invalid_ipv6_url
  /\ ~ exists r, Sample.parse (u "https://t.me]/durov/42") None = Ok r.
Proof.
  repeat split. intros [r H]. discriminate H.
Qed.

Lemma link_without_segments_witness :
  is_link (u "https://t.me/  ") = true
  /\ Sample.parse (u "https://t.me/  ") (Some 3%Z)
     = Ok (u "https://t.me/", Some 3%Z)
  /\ exists identifier trailing,
       Sample.parse (u "https://t.me/  ") (Some 3%Z)
       = Ok (identifier, Some 3%Z)
       /\ u "https://t.me/  " = identifier ++ trailing
       /\ Forall (fun c => isspace c = true) trailing
       /\ is_link identifier = true
       /\ match rev identifier with
          | c :: _ => isspace c = false
          | [] => True
          end.
Proof.
  split; [reflexivity|]. split; [reflexivity|].
  apply (link_without_segments Sample.todecimal Sample.nfkc
           Sample.check_bracketed_netloc (u "https://t.me/  ") (Some 3%Z)).
  - reflexivity.
  - reflexivity.
Defined.

(** C10 as stated: a bare domain link with a trailing slash and an
    unmatched bracket in the authority begins with a scheme and has no
    path segment, yet nothing is returned; the call raises
    [ValueError]. *)
Lemma link_without_segments_counterexample :
  is_link (u "https://t.me]/") = true
  /\ u "https://t.me]/" = u "https://" ++ u "t.me]" ++ u "/"
  /\ path_parts (u "/") = []
  /\ Sample.parse (u "https://t.me]/") None = Raise UrlParse.invalid_ipv6_url
  /\ ~ exists r, Sample.parse (u "https://t.me]/") None = Ok r.
Proof.
  repeat split. intros [r H]. discriminate H.
Qed.

(** ** Each retained message and its own record *)

Lemma take_while_holds {A : Type} (p : A -> bool) (l : list A) :
  Forall (fun x => p x = true) (take_while p l).
Proof.
  induction l as [|x l IH]; simpl; [constructor|].
  destruct (p x) eqn:Hx; [now constructor|constructor].
Qed.

Lemma take_while_app_keep {A : Type} (p : A -> bool) (l : list A) (x : A)
      (r : list A) :
  Forall (fun y => p y = true) l -> p x = true ->
  take_while p (l ++ x :: r) = l ++ x :: take_while p r.
Proof.
  induction 1 as [|y l Hy _ IH]; intros Hx; simpl.
  - now rewrite Hx.
  - now rewrite Hy, IH.
Qed.

Section RecordFacts.
Variable chat_identifier : str.
Variable cutoff : Z.

(** The rows are the records of the retained messages, one for one and in
    order, each built from its own message, whose timestamp is not before
    the cutoff. *)
Lemma rows_pair_with_messages (items : list item) :
  Forall2 (fun msg row =>
             exists d, date msg = Some d /\ (cutoff <= d)%Z
                       /\ row = to_row chat_identifier msg d)
          (take_while (in_window cutoff) (dated items)) (fst (collect chat_identifier cutoff items [])).
Proof.
  rewrite (collect_rows_from chat_identifier cutoff items []). simpl app.
  pose proof (take_while_holds (in_window cutoff) (dated items)) as H.
  induction H as [|msg l Hw _ IH]; simpl; [constructor|].
  unfold in_window in Hw.
  destruct (date msg) as [d|] eqn:Hd; [|discriminate].
  simpl. constructor; [|exact IH].
  exists d. split; [exact Hd|]. split; [now apply Z.leb_le|reflexivity].
Qed.

(** C5, amended: the rows collected are the records of the retained
    messages, one for one and in order, and in the record of each retained
    message [is_service] is the integer 1 when that message has an action
    and the integer 0 when it has none, and [text] is the empty text when
    that message has no text. *)
Theorem retained_record_fields (items : list item) :
  Forall2 (fun msg row =>
             is_record_of chat_identifier msg row
             /\ (action msg <> None ->
                 dict_get "is_service" row = Some (PyInt 1))
             /\ (action msg = None ->
                 dict_get "is_service" row = Some (PyInt 0))
             /\ (message msg = None \/ message msg = Some [] ->
                 dict_get "text" row = Some (PyStr [])))
          (take_while (in_window cutoff) (dated items)) (fst (collect chat_identifier cutoff items [])).
Proof.
  eapply Forall2_impl; [|apply rows_pair_with_messages].
  intros msg row (d & Hd & _ & ->).
  split; [now exists d|]. cbn. repeat split.
  - destruct (action msg); [reflexivity|congruence].
  - now intros ->.
  - now intros [-> | ->].
Qed.

(** X5: the rows collected are the records of the retained messages, one
    for one and in order: each row is built from its own message, whose
    timestamp is not before the cutoff, has the eight keys of the output
    record in the order written, and carries the resolved chat identifier,
    that message's id and its timestamp in ISO format.  A message dated
    exactly at the cutoff, with only in-window dated messages before it,
    is kept. *)
Theorem collected_row_shape (items : list item) :
  Forall2 (fun msg row =>
             exists d,
               date msg = Some d /\ (cutoff <= d)%Z
               /\ row = to_row chat_identifier msg d
               /\ List.map fst row = row_keys
               /\ dict_get "chat_identifier" row = Some (PyStr chat_identifier)
               /\ dict_get "message_id" row = Some (PyInt (id msg))
               /\ dict_get "date" row = Some (PyStr (isoformat d)))
          (take_while (in_window cutoff) (dated items)) (fst (collect chat_identifier cutoff items []))
  /\ forall before msg after,
       items = before ++ IsMessage msg :: after ->
       date msg = Some cutoff ->
       Forall (fun m => in_window cutoff m = true) (dated before) ->
       fst (collect chat_identifier cutoff items []) =
         projection chat_identifier (dated before)
           ++ to_row chat_identifier msg cutoff :: fst (collect chat_identifier cutoff after []).
Proof.
  split.
  - eapply Forall2_impl; [|apply rows_pair_with_messages].
    intros msg row (d & Hd & Hw & ->). exists d. repeat split; auto.
  - intros before msg after -> Hd Hin.
    rewrite (collect_rows_from chat_identifier cutoff _ []),
            (collect_rows_from chat_identifier cutoff after []).
    simpl app. rewrite dated_app. simpl dated. rewrite Hd.
    rewrite take_while_app_keep;
      [|exact Hin|unfold in_window; rewrite Hd; apply Z.leb_refl].
    rewrite projection_app. simpl. now rewrite Hd.
Qed.

(** X20: in the record of each retained message, [chat_identifier],
    [message_id], [date], [text] and [is_service] are never null, and each
    of [sender_id], [sender_username] and [reply_to_msg_id] is null exactly
    when that message has no such value: no sender id, no sender or a
    sender without user name, no replied-to message. *)
Theorem collected_row_nulls (items : list item) :
  Forall2 (fun msg row =>
             is_record_of chat_identifier msg row
             /\ (forall key,
                   In key ["chat_identifier"; "message_id"; "date"; "text";
                           "is_service"]%string ->
                   exists v, dict_get key row = Some v /\ v <> PyNone)
             /\ (dict_get "sender_id" row = Some PyNone
                 <-> sender_id msg = None)
             /\ (dict_get "reply_to_msg_id" row = Some PyNone
                 <-> reply_to_msg_id msg = None)
             /\ (dict_get "sender_username" row = Some PyNone
                 <-> (sender msg = None
                      \/ exists s, sender msg = Some s /\ username s = None)))
          (take_while (in_window cutoff) (dated items)) (fst (collect chat_identifier cutoff items [])).
Proof.
  eapply Forall2_impl; [|apply rows_pair_with_messages].
  intros msg row (d & Hd & _ & ->).
  split; [now exists d|]. split.
  - intros key [<-|[<-|[<-|[<-|[<-|[]]]]]]; eexists;
      (split; [reflexivity|discriminate]).
  - cbn. repeat split.
    + destruct (sender_id msg); [discriminate|reflexivity].
    + now intros ->.
    + destruct (reply_to_msg_id msg); [discriminate|reflexivity].
    + now intros ->.
    + destruct (sender msg) as [s|]; [|now left].
      destruct (username s) eqn:Hu; [discriminate|].
      right. now exists s.
    + intros [-> |(s & -> & ->)]; reflexivity.
Qed.

End RecordFacts.

Lemma retained_record_fields_witness :
  Forall2 (fun msg row =>
             is_record_of (u "durov") msg row
             /\ (action msg <> None ->
                 dict_get "is_service" row = Some (PyInt 1))
             /\ (action msg = None ->
                 dict_get "is_service" row = Some (PyInt 0))
             /\ (message msg = None \/ message msg = Some [] ->
                 dict_get "text" row = Some (PyStr [])))
          [Sample.msg 3 300; Sample.pinned 2 200]
          (fst (collect (u "durov") 150
                  [IsMessage (Sample.msg 3 300); NotMessage;
                   IsMessage (Sample.pinned 2 200); IsMessage (Sample.msg 1 100)]
                  [])).
Proof.
  apply (retained_record_fields (u "durov") 150
           [IsMessage (Sample.msg 3 300); NotMessage;
            IsMessage (Sample.pinned 2 200); IsMessage (Sample.msg 1 100)]).
Defined.

Lemma collected_row_shape_witness :
  fst (collect (u "durov") 150
         ([IsMessage (Sample.msg 3 300)] ++ IsMessage (Sample.msg 2 150)
            :: [IsMessage (Sample.msg 1 100)]) [])
  = projection (u "durov") (dated [IsMessage (Sample.msg 3 300)])
      ++ to_row (u "durov") (Sample.msg 2 150) 150
      :: fst (collect (u "durov") 150 [IsMessage (Sample.msg 1 100)] []).
Proof.
  apply (proj2 (collected_row_shape (u "durov") 150
                  ([IsMessage (Sample.msg 3 300)] ++ IsMessage (Sample.msg 2 150)
                     :: [IsMessage (Sample.msg 1 100)]))
           [IsMessage (Sample.msg 3 300)] (Sample.msg 2 150)
           [IsMessage (Sample.msg 1 100)]).
  - reflexivity.
  - reflexivity.
  - simpl. repeat constructor.
Defined.

Lemma collected_row_nulls_witness :
  Forall2 (fun msg row =>
             is_record_of (u "durov") msg row
             /\ (forall key,
                   In key ["chat_identifier"; "message_id"; "date"; "text";
                           "is_service"]%string ->
                   exists v, dict_get key row = Some v /\ v <> PyNone)
             /\ (dict_get "sender_id" row = Some PyNone
                 <-> sender_id msg = None)
             /\ (dict_get "reply_to_msg_id" row = Some PyNone
                 <-> reply_to_msg_id msg = None)
             /\ (dict_get "sender_username" row = Some PyNone
                 <-> (sender msg = None
                      \/ exists s, sender msg = Some s /\ username s = None)))
          [Sample.msg 3 300]
          (fst (collect (u "durov") 150 [IsMessage (Sample.msg 3 300)] [])).
Proof.
  apply (collected_row_nulls (u "durov") 150 [IsMessage (Sample.msg 3 300)]).
Defined.

Example timedelta_days_text :
  timedelta_days 1000000000
  = Raise (Exn OverflowError
               (u "days=1000000000; must have magnitude <= 999999999"))
  /\ timedelta_days (-1000000000)
     = Raise (Exn OverflowError
                  (u "days=-1000000000; must have magnitude <= 999999999")).
Proof. split; reflexivity. Qed.
